(** * 2026 Market Intelligence: the financial analysis and scoring engine

    A shallow embedding of [Utils] (js/utils.js), [FinancialAnalyzer] and
    [MLEngine], and the properties of the scoring engine stated in the
    specification.

    Numbers.  A JavaScript number is modelled by [num]: an exact rational, or
    one of the three non-finite values [+Infinity], [-Infinity], [NaN].  The
    arithmetic follows IEEE 754 on the non-finite values and on division by
    zero; on finite values it is exact (no rounding, no overflow, one zero).

    Failure.  Reading a property of [undefined] raises a [TypeError]; a
    function that can do so returns an [outcome].  A function that can
    return [null] returns an [option]. *)

From Stdlib Require Import Strings.String.
From Stdlib Require Import QArith Qminmax ZArith Lia Lqa List Bool Arith.
From Stdlib Require Import Permutation Sorted Morphisms Setoid.
Import ListNotations.

Set Implicit Arguments.

(* ================================================================== *)
(** ** JavaScript numbers *)

Inductive num : Type :=
| Fin (q : Q)
| PInf
| NInf
| NaN.

Declare Scope num_scope.
Delimit Scope num_scope with num.
Bind Scope num_scope with num.

Definition Qltb (p q : Q) : bool := negb (Qle_bool q p).

Definition ofNat (n : nat) : num := Fin (inject_Z (Z.of_nat n)).

Definition num_opp (a : num) : num :=
  match a with
  | Fin p => Fin (- p)
  | PInf => NInf
  | NInf => PInf
  | NaN => NaN
  end.

Definition num_add (a b : num) : num :=
  match a, b with
  | NaN, _ | _, NaN => NaN
  | Fin p, Fin q => Fin (p + q)
  | PInf, NInf | NInf, PInf => NaN
  | PInf, _ | _, PInf => PInf
  | NInf, _ | _, NInf => NInf
  end.

Definition num_sub (a b : num) : num := num_add a (num_opp b).

(** The infinity whose sign is the sign of [p] times the sign [neg]. *)
Definition signed_inf (neg : bool) (p : Q) : num :=
  if xorb neg (Qltb p 0) then NInf else PInf.

Definition num_mul (a b : num) : num :=
  match a, b with
  | NaN, _ | _, NaN => NaN
  | Fin p, Fin q => Fin (p * q)
  | Fin p, PInf | PInf, Fin p => if Qeq_bool p 0 then NaN else signed_inf false p
  | Fin p, NInf | NInf, Fin p => if Qeq_bool p 0 then NaN else signed_inf true p
  | PInf, PInf | NInf, NInf => PInf
  | PInf, NInf | NInf, PInf => NInf
  end.

Definition num_div (a b : num) : num :=
  match a, b with
  | NaN, _ | _, NaN => NaN
  | Fin p, Fin q =>
      if Qeq_bool q 0
      then (if Qeq_bool p 0 then NaN else signed_inf false p)
      else Fin (p / q)
  | Fin _, PInf | Fin _, NInf => Fin 0
  | PInf, Fin q => signed_inf false q
  | NInf, Fin q => signed_inf true q
  | PInf, PInf | PInf, NInf | NInf, PInf | NInf, NInf => NaN
  end.

(** [a < b], false as soon as one side is [NaN]. *)
Definition num_lt (a b : num) : bool :=
  match a, b with
  | NaN, _ | _, NaN => false
  | Fin p, Fin q => Qltb p q
  | _, NInf => false
  | NInf, _ => true
  | PInf, _ => false
  | Fin _, PInf => true
  end.

Definition num_gt (a b : num) : bool := num_lt b a.

(** [a === b] on numbers. *)
Definition strict_eq (a b : num) : bool :=
  match a, b with
  | Fin p, Fin q => Qeq_bool p q
  | PInf, PInf | NInf, NInf => true
  | _, _ => false
  end.

Definition num_ge (a b : num) : bool := num_gt a b || strict_eq a b.

(** [a <= b], false as soon as one side is [NaN]. *)
Definition num_le (a b : num) : bool := num_lt a b || strict_eq a b.

(** [!a]: a number is falsy when it is zero or [NaN]. *)
Definition falsy (a : num) : bool :=
  match a with
  | Fin p => Qeq_bool p 0
  | NaN => true
  | PInf | NInf => false
  end.

Infix "+" := num_add : num_scope.
Infix "-" := num_sub : num_scope.
Infix "*" := num_mul : num_scope.
Infix "/" := num_div : num_scope.
Infix "<?" := num_lt (at level 70, no associativity) : num_scope.
Infix ">?" := num_gt (at level 70, no associativity) : num_scope.
Infix "===" := strict_eq (at level 70, no associativity) : num_scope.

(** The same number, whatever fraction represents it. *)
Definition num_eqv (a b : num) : Prop :=
  match a, b with
  | Fin p, Fin q => p == q
  | PInf, PInf | NInf, NInf | NaN, NaN => True
  | _, _ => False
  end.

Infix "=n=" := num_eqv (at level 70, no associativity).

Definition isFinite (a : num) : bool :=
  match a with Fin _ => true | _ => false end.

(* ================================================================== *)
(** ** Failure: a computation that may raise a [TypeError] *)

Inductive outcome (A : Type) : Type :=
| Ret (a : A)
| TypeError.

Arguments TypeError {A}.

Definition bind {A B : Type} (m : outcome A) (k : A -> outcome B) : outcome B :=
  match m with
  | Ret a => k a
  | TypeError => TypeError
  end.

Notation "x <- m ;; k" := (bind m (fun x => k))
  (at level 61, m at next level, right associativity).

Fixpoint mapM {A B : Type} (f : A -> outcome B) (l : list A) : outcome (list B) :=
  match l with
  | [] => Ret []
  | a :: t => b <- f a ;; bs <- mapM f t ;; Ret (b :: bs)
  end.

(** [arr.filter(p)] with a callback that may raise. *)
Fixpoint filterM {A : Type} (p : A -> outcome bool) (l : list A) : outcome (list A) :=
  match l with
  | [] => Ret []
  | a :: t =>
      keep <- p a ;; rest <- filterM p t ;;
      Ret (if keep then a :: rest else rest)
  end.

(** [arr.sort(cmp)]: the sort is stable and a pair is exchanged only when
    the comparator is positive; written as an insertion sort.  (When the
    comparator is not a consistent order, e.g. it returns [NaN], the
    language leaves the result to the implementation; the properties below
    are stated for finite keys.) *)
Fixpoint insertSorted {A : Type} (cmp : A -> A -> num) (x : A) (l : list A) : list A :=
  match l with
  | [] => [x]
  | y :: t => if num_gt (cmp x y) (Fin 0) then y :: insertSorted cmp x t else x :: l
  end.

Definition arraySort {A : Type} (cmp : A -> A -> num) (l : list A) : list A :=
  fold_right (insertSorted cmp) [] l.

(* ================================================================== *)
(** ** [Math.min], [Math.max] *)

Module Math.

Definition max2 (a b : num) : num :=
  match a, b with
  | NaN, _ | _, NaN => NaN
  | _, _ => if num_lt a b then b else a
  end.

Definition min2 (a b : num) : num :=
  match a, b with
  | NaN, _ | _, NaN => NaN
  | _, _ => if num_lt b a then b else a
  end.

(** [Math.max(...l)], [Math.min(...l)]: left to right from the neutral
    infinity. *)
Definition max (l : list num) : num := fold_left max2 l NInf.
Definition min (l : list num) : num := fold_left min2 l PInf.

End Math.

(* ================================================================== *)
(** ** js/utils.js *)

Module Utils.

Definition clamp (value lo hi : num) : num :=
  Math.min [Math.max [value; lo]; hi].

Definition growthRate (oldVal newVal : num) : num :=
  if falsy oldVal || (oldVal === Fin 0)%num then Fin 0
  else (((newVal - oldVal) / oldVal) * Fin 100)%num.

Definition safeDivide (a b : num) : num :=
  if falsy b || (b === Fin 0)%num then Fin 0
  else (a / b)%num.

Definition isValidNumber (val : num) : bool :=
  match val with
  | Fin _ => true
  | NaN => false
  | PInf | NInf => false
  end.

Definition average (arr : list num) : num :=
  match arr with
  | [] => Fin 0
  | _ => (fold_left (fun sum val => (sum + val)%num) arr (Fin 0)
          / ofNat (length arr))%num
  end.


(** [a[prop] || 0], the property read as a number: [prop a] is [None] when
    the object has no property of that name ([undefined]). *)
Definition orZero (v : option num) : num :=
  match v with
  | Some n => if falsy n then Fin 0 else n
  | None => Fin 0
  end.

(** [sortBy] on objects whose property [prop] is a number or absent. *)
Definition sortBy {A : Type} (arr : list A) (prop : A -> option num) (desc : bool) : list A :=
  arraySort
    (fun a b =>
       let aVal := orZero (prop a) in
       let bVal := orZero (prop b) in
       if desc then (bVal - aVal)%num else (aVal - bVal)%num)
    arr.

End Utils.

(* ================================================================== *)
(** ** Data model (js/data-loader.js) *)

Record FiscalYear : Type := {
  fy : string;
  revenue : num;
  netProfit : num;
  totalDebt : num;
  totalEquity : num;
  marketCap : num
}.

Record Company : Type := {
  company : string;
  ticker : string;
  sector : string;
  years : list FiscalYear
}.

(** [arr.reduce((acc, x, i) => f(acc, x, i), init)], the index starting
    at [i]. *)
Fixpoint reducei {A B : Type} (f : B -> A -> nat -> B) (l : list A) (i : nat)
  (acc : B) : B :=
  match l with
  | [] => acc
  | x :: t => reducei f t (S i) (f acc x i)
  end.

(** [arr.map((x, i) => f(x, i))], the index starting at [i]. *)
Fixpoint mapi {A B : Type} (f : A -> nat -> B) (l : list A) (i : nat) : list B :=
  match l with
  | [] => []
  | x :: t => f x i :: mapi f t (S i)
  end.

(** [for (let i = 1; i < n; i++) body], as a fold over the indices. *)
Definition forFrom1 {S : Type} (n : nat) (body : nat -> S -> S) (init : S) : S :=
  fold_left (fun s i => body i s) (seq 1 (n - 1)) init.

(* ================================================================== *)
(** ** Financial analysis engine *)

Module FinancialAnalyzer.

Record Metrics : Type := {
  profitMargin : num;
  roe : num;
  debtToEquity : num;
  priceToEquity : num;
  priceToSales : num;
  m_revenue : num;
  m_netProfit : num;
  m_totalDebt : num;
  m_totalEquity : num;
  m_marketCap : num
}.

Inductive RiskLevel : Type := low | medium | high.

Definition calculateMetrics (c : Company) : outcome Metrics :=
  match nth_error (years c) (length (years c) - 1) with
  | None => TypeError
  | Some latestYear =>
      Ret {| profitMargin :=
               (Utils.safeDivide (netProfit latestYear) (revenue latestYear) * Fin 100)%num;
             roe :=
               (Utils.safeDivide (netProfit latestYear) (totalEquity latestYear) * Fin 100)%num;
             debtToEquity :=
               Utils.safeDivide (totalDebt latestYear) (totalEquity latestYear);
             priceToEquity :=
               Utils.safeDivide (marketCap latestYear) (totalEquity latestYear);
             priceToSales :=
               Utils.safeDivide (marketCap latestYear) (revenue latestYear);
             m_revenue := revenue latestYear;
             m_netProfit := netProfit latestYear;
             m_totalDebt := totalDebt latestYear;
             m_totalEquity := totalEquity latestYear;
             m_marketCap := marketCap latestYear |}
  end.

(** The four steps of [calculateHealthScore], each taking the running
    [score] to its next value. *)

Definition addProfitMargin (metrics : Metrics) (score : num) : num :=
  if (profitMargin metrics >? Fin 20)%num then (score + Fin 20)%num
  else if (profitMargin metrics >? Fin 10)%num then (score + Fin 15)%num
  else if (profitMargin metrics >? Fin 5)%num then (score + Fin 10)%num
  else if (profitMargin metrics >? Fin 0)%num then (score + Fin 5)%num
  else score.

Definition addRoe (metrics : Metrics) (score : num) : num :=
  if (roe metrics >? Fin 20)%num then (score + Fin 20)%num
  else if (roe metrics >? Fin 15)%num then (score + Fin 15)%num
  else if (roe metrics >? Fin 10)%num then (score + Fin 10)%num
  else if (roe metrics >? Fin 5)%num then (score + Fin 5)%num
  else score.

Definition addDebt (metrics : Metrics) (score : num) : num :=
  if (debtToEquity metrics <? Fin 0.5)%num then (score + Fin 30)%num
  else if (debtToEquity metrics <? Fin 1)%num then (score + Fin 20)%num
  else if (debtToEquity metrics <? Fin 2)%num then (score + Fin 10)%num
  else if (debtToEquity metrics <? Fin 3)%num then (score + Fin 5)%num
  else score.

Definition addGrowthOf (growth : num) (score : num) : num :=
  if (growth >? Fin 20)%num then (score + Fin 15)%num
  else if (growth >? Fin 10)%num then (score + Fin 10)%num
  else if (growth >? Fin 5)%num then (score + Fin 5)%num
  else score.

Definition addGrowth (c : Company) (score : num) : outcome num :=
  if (2 <=? length (years c))%nat then
    match nth_error (years c) (length (years c) - 1),
          nth_error (years c) (length (years c) - 2) with
    | Some recentYear, Some prevYear =>
        let revenueGrowth := Utils.growthRate (revenue prevYear) (revenue recentYear) in
        let profitGrowth := Utils.growthRate (netProfit prevYear) (netProfit recentYear) in
        let score := addGrowthOf revenueGrowth score in
        let score := addGrowthOf profitGrowth score in
        Ret score
    | _, _ => TypeError
    end
  else Ret score.

Definition calculateHealthScore (c : Company) : outcome num :=
  metrics <- calculateMetrics c ;;
  let score := Fin 0 in
  let score := addProfitMargin metrics score in
  let score := addRoe metrics score in
  let score := addDebt metrics score in
  score <- addGrowth c score ;;
  Ret (Utils.clamp score (Fin 0) (Fin 100)).

(** The three steps of [calculateRisk] on the running [riskScore]. *)

Definition addDebtRisk (metrics : Metrics) (riskScore : num) : num :=
  if (debtToEquity metrics >? Fin 3)%num then (riskScore + Fin 45)%num
  else if (debtToEquity metrics >? Fin 2)%num then (riskScore + Fin 30)%num
  else if (debtToEquity metrics >? Fin 1)%num then (riskScore + Fin 15)%num
  else riskScore.

Definition addProfitabilityRisk (metrics : Metrics) (riskScore : num) : num :=
  if (profitMargin metrics <? Fin 0)%num then (riskScore + Fin 40)%num
  else if (profitMargin metrics <? Fin 5)%num then (riskScore + Fin 25)%num
  else if (profitMargin metrics <? Fin 10)%num then (riskScore + Fin 10)%num
  else riskScore.

Definition addValuationRisk (metrics : Metrics) (riskScore : num) : num :=
  if (priceToEquity metrics >? Fin 12)%num then (riskScore + Fin 20)%num
  else if (priceToEquity metrics >? Fin 7)%num then (riskScore + Fin 10)%num
  else riskScore.

Definition calculateRisk (c : Company) : outcome RiskLevel :=
  metrics <- calculateMetrics c ;;
  let riskScore := Fin 0 in
  let riskScore := addDebtRisk metrics riskScore in
  let riskScore := addProfitabilityRisk metrics riskScore in
  let riskScore := addValuationRisk metrics riskScore in
  Ret (if num_ge riskScore (Fin 65) then high
       else if num_ge riskScore (Fin 35) then medium
       else low).

(** A company with its metrics and health score:
    [{...company, metrics, healthScore}]. *)
Record Analyzed : Type := {
  a_company : Company;
  a_metrics : Metrics;
  a_healthScore : num
}.

Definition annotate (c : Company) : outcome Analyzed :=
  metrics <- calculateMetrics c ;;
  healthScore <- calculateHealthScore c ;;
  Ret {| a_company := c; a_metrics := metrics; a_healthScore := healthScore |}.

Definition undervaluedFilter (c : Company) : outcome bool :=
  metrics <- calculateMetrics c ;;
  healthScore <- calculateHealthScore c ;;
  Ret ((healthScore >? Fin 60)%num
       && (priceToEquity metrics <? Fin 3)%num
       && (profitMargin metrics >? Fin 5)%num
       && (debtToEquity metrics <? Fin 2)%num).

Definition findUndervalued (companies : list Company) : outcome (list Analyzed) :=
  found <- filterM undervaluedFilter companies ;;
  mapM annotate found.

Definition overvaluedFilter (c : Company) : outcome bool :=
  metrics <- calculateMetrics c ;;
  healthScore <- calculateHealthScore c ;;
  Ret ((healthScore <? Fin 40)%num
       && ((priceToEquity metrics >? Fin 5)%num
           || (profitMargin metrics <? Fin 0)%num
           || (debtToEquity metrics >? Fin 3)%num)).

Definition findOvervalued (companies : list Company) : outcome (list Analyzed) :=
  found <- filterM overvaluedFilter companies ;;
  mapM annotate found.

(** The loop of [findGrowthLeaders]: once [consistentGrowth] is false the
    loop has been left ([break]) and the later indices change nothing. *)
Definition growthLeaderFilter (c : Company) : bool :=
  if (length (years c) <? 3)%nat then false else
  forFrom1 (length (years c))
    (fun i (consistentGrowth : bool) =>
       if consistentGrowth then
         match nth_error (years c) (i - 1), nth_error (years c) i with
         | Some prevYear, Some currYear =>
             if num_le (revenue currYear) (revenue prevYear)
                || num_le (netProfit currYear) (netProfit prevYear)
             then false
             else consistentGrowth
         | _, _ => consistentGrowth
         end
       else consistentGrowth)
    true.

Definition findGrowthLeaders (companies : list Company) : outcome (list Analyzed) :=
  mapM annotate (filter growthLeaderFilter companies).

Definition stableFilter (c : Company) : outcome bool :=
  if (length (years c) <? 3)%nat then Ret false else
  metrics <- calculateMetrics c ;;
  healthScore <- calculateHealthScore c ;;
  Ret ((m_marketCap metrics >? Fin 50000)%num
       && (debtToEquity metrics <? Fin 1)%num
       && (healthScore >? Fin 50)%num
       && forallb (fun y => (netProfit y >? Fin 0)%num) (years c)).

Definition findStableCompanies (companies : list Company) : outcome (list Analyzed) :=
  found <- filterM stableFilter companies ;;
  mapM annotate found.

Definition calculatePotentialReturn (c : Company) : outcome num :=
  metrics <- calculateMetrics c ;;
  healthScore <- calculateHealthScore c ;;
  let potential := healthScore in
  let potential :=
    if (priceToEquity metrics <? Fin 2)%num then (potential + Fin 20)%num
    else potential in
  let potential :=
    if (profitMargin metrics >? Fin 15)%num then (potential + Fin 15)%num
    else potential in
  let potential :=
    if (debtToEquity metrics <? Fin 0.5)%num then (potential + Fin 10)%num
    else potential in
  potential <-
    (if (2 <=? length (years c))%nat then
       match nth_error (years c) (length (years c) - 1),
             nth_error (years c) (length (years c) - 2) with
       | Some recentYear, Some prevYear =>
           let growth := Utils.growthRate (revenue prevYear) (revenue recentYear) in
           Ret (if (growth >? Fin 20)%num then (potential + Fin 15)%num
                else if (growth >? Fin 10)%num then (potential + Fin 10)%num
                else potential)
       | _, _ => TypeError
       end
     else Ret potential) ;;
  Ret (Utils.clamp potential (Fin 0) (Fin 100)).

End FinancialAnalyzer.

(* ================================================================== *)
(** ** Machine learning engine *)

Module MLEngine.

Import FinancialAnalyzer.

Definition normalize (value min max : num) : num :=
  if (max === min)%num then Fin 0.5
  else ((value - min) / (max - min))%num.

(** The keys of the [features] and [weights] objects, in insertion order. *)
Inductive FeatureKey : Type :=
| valuationScore
| profitabilityScore
| debtScore
| roeScore.

Definition weights (key : FeatureKey) : num :=
  match key with
  | valuationScore => Fin 0.35
  | profitabilityScore => Fin 0.30
  | debtScore => Fin 0.20
  | roeScore => Fin 0.15
  end.

Section Engine.

(** [this.companies] *)
Variable companies : list Company.

Definition calculateUndervaluationScore (c : Company) : outcome num :=
  metrics <- calculateMetrics c ;;
  allMetrics <- mapM calculateMetrics companies ;;
  let peRatios := filter Utils.isValidNumber (map priceToEquity allMetrics) in
  let margins := filter Utils.isValidNumber (map profitMargin allMetrics) in
  let debtRatios := filter Utils.isValidNumber (map debtToEquity allMetrics) in
  let peMin := Math.min peRatios in
  let peMax := Math.max peRatios in
  let marginMin := Math.min margins in
  let marginMax := Math.max margins in
  let debtMin := Math.min debtRatios in
  let debtMax := Math.max debtRatios in
  let features (key : FeatureKey) : num :=
    match key with
    | valuationScore => (Fin 1 - normalize (priceToEquity metrics) peMin peMax)%num
    | profitabilityScore => normalize (profitMargin metrics) marginMin marginMax
    | debtScore => (Fin 1 - normalize (debtToEquity metrics) debtMin debtMax)%num
    | roeScore => Utils.clamp (roe metrics / Fin 30)%num (Fin 0) (Fin 1)
    end in
  let score :=
    fold_left (fun score key => (score + features key * weights key)%num)
      [valuationScore; profitabilityScore; debtScore; roeScore] (Fin 0) in
  Ret (Utils.clamp (score * Fin 100)%num (Fin 0) (Fin 100)).

(** Number of indices [1 <= i < length l] at which [test l[i] l[i-1]]. *)
Definition countLoop {A : Type} (l : list A) (test : A -> A -> bool) : nat :=
  forFrom1 (length l)
    (fun i count =>
       match nth_error l i, nth_error l (i - 1) with
       | Some cur, Some prev => if test cur prev then S count else count
       | _, _ => count
       end) 0%nat.

Definition calculateMomentumScore (c : Company) : num :=
  if (length (years c) <? 3)%nat then Fin 50 else
  let years := years c in
  let revenueIncreasing :=
    countLoop years (fun cur prev => (revenue cur >? revenue prev)%num) in
  let revenueMomentum := (ofNat revenueIncreasing / ofNat (length years - 1))%num in
  let profitIncreasing :=
    countLoop years (fun cur prev => (netProfit cur >? netProfit prev)%num) in
  let profitMomentum := (ofNat profitIncreasing / ofNat (length years - 1))%num in
  let revenueGrowthRates :=
    forFrom1 (length years)
      (fun i rates =>
         match nth_error years (i - 1), nth_error years i with
         | Some prev, Some cur =>
             rates ++ [Utils.growthRate (revenue prev) (revenue cur)]
         | _, _ => rates
         end) [] in
  let acceleration :=
    if (2 <=? length revenueGrowthRates)%nat then
      let acceleration :=
        countLoop revenueGrowthRates (fun cur prev => (cur >? prev)%num) in
      (ofNat acceleration / ofNat (length revenueGrowthRates - 1))%num
    else Fin 0 in
  let score :=
    (revenueMomentum * Fin 40 + profitMomentum * Fin 40 + acceleration * Fin 20)%num in
  Utils.clamp (score * Fin 100)%num (Fin 0) (Fin 100).

(** In the two predictions the local [years] (the indices) hides the field
    of the same name, so the series is bound first. *)
Definition predict2026Revenue (c : Company) : option num :=
  if (length (years c) <? 3)%nat then None else
  let revenues := map revenue (years c) in
  let years := mapi (fun _ i => ofNat i) (years c) 0 in
  let n := ofNat (length years) in
  let sumX := fold_left (fun a b => (a + b)%num) years (Fin 0) in
  let sumY := fold_left (fun a b => (a + b)%num) revenues (Fin 0) in
  let sumXY :=
    reducei (fun sum x i => (sum + x * nth i revenues NaN)%num) years 0 (Fin 0) in
  let sumX2 := fold_left (fun sum x => (sum + x * x)%num) years (Fin 0) in
  let slope := ((n * sumXY - sumX * sumY) / (n * sumX2 - sumX * sumX))%num in
  let intercept := ((sumY - slope * sumX) / n)%num in
  let predictedRevenue := (slope * ofNat (length years) + intercept)%num in
  Some (Math.max [Fin 0; predictedRevenue]).

Definition predict2026Profit (c : Company) : option num :=
  if (length (years c) <? 3)%nat then None else
  let profits := map netProfit (years c) in
  let years := mapi (fun _ i => ofNat i) (years c) 0 in
  let n := ofNat (length years) in
  let sumX := fold_left (fun a b => (a + b)%num) years (Fin 0) in
  let sumY := fold_left (fun a b => (a + b)%num) profits (Fin 0) in
  let sumXY :=
    reducei (fun sum x i => (sum + x * nth i profits NaN)%num) years 0 (Fin 0) in
  let sumX2 := fold_left (fun sum x => (sum + x * x)%num) years (Fin 0) in
  let slope := ((n * sumXY - sumX * sumY) / (n * sumX2 - sumX * sumX))%num in
  let intercept := ((sumY - slope * sumX) / n)%num in
  let predictedProfit := (slope * ofNat (length years) + intercept)%num in
  Some predictedProfit.

Inductive Category : Type :=
| undervalued
| overvalued
| growth
| stable
| neutral.

Record Classification : Type := {
  category : Category;
  confidence : num
}.

Definition isLow (risk : RiskLevel) : bool :=
  match risk with low => true | _ => false end.

Definition classifyCompany (c : Company) : outcome Classification :=
  healthScore <- calculateHealthScore c ;;
  undervalScore <- calculateUndervaluationScore c ;;
  let momentum := calculateMomentumScore c in
  risk <- calculateRisk c ;;
  metrics <- calculateMetrics c ;;
  if (undervalScore >? Fin 70)%num && (healthScore >? Fin 60)%num then
    Ret {| category := undervalued; confidence := Fin 0.9 |}
  else if (healthScore <? Fin 40)%num
          && ((debtToEquity metrics >? Fin 3)%num || (profitMargin metrics <? Fin 0)%num) then
    Ret {| category := overvalued; confidence := Fin 0.85 |}
  else if (momentum >? Fin 75)%num && (healthScore >? Fin 50)%num then
    Ret {| category := growth; confidence := Fin 0.8 |}
  else if isLow risk && (m_marketCap metrics >? Fin 50000)%num
          && (healthScore >? Fin 50)%num then
    Ret {| category := stable; confidence := Fin 0.85 |}
  else
    Ret {| category := neutral; confidence := Fin 0.5 |}.

Inductive InsightType : Type :=
| positive
| negative
| warning.

Record Insight : Type := {
  type : InsightType;
  text : string
}.

Record MLInsights : Type := {
  i_healthScore : num;
  i_undervalScore : num;
  i_momentum : num;
  i_classification : Classification;
  i_predicted2026Revenue : option num;
  i_predicted2026Profit : option num;
  insights : list Insight
}.

Definition generateInsights (c : Company) : outcome MLInsights :=
  healthScore <- calculateHealthScore c ;;
  undervalScore <- calculateUndervaluationScore c ;;
  let momentum := calculateMomentumScore c in
  metrics <- calculateMetrics c ;;
  classification <- classifyCompany c ;;
  let predicted2026Revenue := predict2026Revenue c in
  let predicted2026Profit := predict2026Profit c in
  let insights := [] in
  let insights :=
    if (healthScore >? Fin 70)%num then
      insights ++ [{| type := positive;
                      text := "Strong financial health with solid fundamentals" |}]
    else if (healthScore <? Fin 40)%num then
      insights ++ [{| type := negative;
                      text := "Weak financial health - caution advised" |}]
    else insights in
  let insights :=
    if (undervalScore >? Fin 70)%num then
      insights ++ [{| type := positive;
                      text := "Potentially undervalued with good upside" |}]
    else if (priceToEquity metrics >? Fin 8)%num then
      insights ++ [{| type := warning;
                      text := "High valuation - may be overpriced" |}]
    else insights in
  let insights :=
    if (momentum >? Fin 75)%num then
      insights ++ [{| type := positive;
                      text := "Strong positive momentum in growth" |}]
    else if (momentum <? Fin 30)%num then
      insights ++ [{| type := negative;
                      text := "Declining momentum - growth slowing" |}]
    else insights in
  let insights :=
    if (debtToEquity metrics >? Fin 3)%num then
      insights ++ [{| type := negative; text := "High debt levels pose risk" |}]
    else if (debtToEquity metrics <? Fin 0.5)%num then
      insights ++ [{| type := positive;
                      text := "Low debt provides financial flexibility" |}]
    else insights in
  let insights :=
    if (profitMargin metrics >? Fin 20)%num then
      insights ++ [{| type := positive; text := "Excellent profit margins" |}]
    else if (profitMargin metrics <? Fin 0)%num then
      insights ++ [{| type := negative;
                      text := "Company is currently unprofitable" |}]
    else insights in
  Ret {| i_healthScore := healthScore;
         i_undervalScore := undervalScore;
         i_momentum := momentum;
         i_classification := classification;
         i_predicted2026Revenue := predicted2026Revenue;
         i_predicted2026Profit := predicted2026Profit;
         insights := insights |}.



End Engine.

End MLEngine.

(* ================================================================== *)
(** ** Data loader (js/data-loader.js): the part that ranks companies *)

Module DataLoader.

(** [{...company, latest, historicalData}]; [latest] is [undefined] for a
    company without a record. *)
Record LatestData : Type := {
  l_company : Company;
  latest : option FiscalYear;
  historicalData : list FiscalYear
}.

Definition getLatestData (companies : list Company) : list LatestData :=
  map (fun c =>
         {| l_company := c;
            latest := nth_error (years c) (length (years c) - 1);
            historicalData := years c |})
    companies.

(** The objects of [getLatestData] have the properties [company],
    [ticker], [sector], [years], [latest] and [historicalData]; bracket
    access with the name ['latest.marketCap'] does not descend into
    [latest], it looks for a property of that very name and finds none. *)
Definition latest_marketCap (d : LatestData) : option num := None.

Definition getTopByMarketCap (companies : list Company) (limit : nat) : list LatestData :=
  let latest := getLatestData companies in
  firstn limit (Utils.sortBy latest latest_marketCap true).

Record Growth : Type := {
  avgRevenueGrowth : num;
  avgProfitGrowth : num;
  revenueGrowthTrend : list num;
  profitGrowthTrend : list num;
  consistentGrowth : bool
}.

(** The [growth] property that [calculateGrowthMetrics] gives a company:
    [null] with fewer than 2 periods. *)
Definition growthOf (c : Company) : option Growth :=
  let years := years c in
  if (length years <? 2)%nat then None else
  let trends :=
    forFrom1 (length years)
      (fun i (trends : list num * list num) =>
         match nth_error years (i - 1), nth_error years i with
         | Some prevYear, Some currYear =>
             (fst trends
                ++ [Utils.growthRate (revenue prevYear) (revenue currYear)],
              snd trends
                ++ [Utils.growthRate (netProfit prevYear) (netProfit currYear)])
         | _, _ => trends
         end)
      ([], []) in
  let revenueGrowth := fst trends in
  let profitGrowth := snd trends in
  Some {| avgRevenueGrowth := Utils.average revenueGrowth;
          avgProfitGrowth := Utils.average profitGrowth;
          revenueGrowthTrend := revenueGrowth;
          profitGrowthTrend := profitGrowth;
          consistentGrowth :=
            forallb (fun g => (g >? Fin 0)%num) revenueGrowth
            && forallb (fun g => (g >? Fin 0)%num) profitGrowth |}.

Definition calculateGrowthMetrics (companies : list Company)
  : list (Company * option Growth) :=
  map (fun c => (c, growthOf c)) companies.

End DataLoader.

(* ================================================================== *)
(** ** Specification-side definitions *)

Import FinancialAnalyzer MLEngine.

(** [clamp] on rationals. *)
Definition Qclamp (x lo hi : Q) : Q := Qmin (Qmax x lo) hi.

(** [k / n] as a rational: the fraction of [n] pairs that satisfy a test
    when [k] of them do. *)
Definition fraction (k n : nat) : Q :=
  inject_Z (Z.of_nat k) / inject_Z (Z.of_nat n).

(** Fold over the consecutive pairs [(prev, cur)] of a list, first pair
    first. *)
Fixpoint foldPairs {A S : Type} (step : A -> A -> S -> S) (l : list A) (s : S) : S :=
  match l with
  | prev :: ((cur :: _) as t) => foldPairs step t (step cur prev s)
  | _ => s
  end.

(** Number of consecutive pairs of [l] whose second element is greater
    than the first. *)
Fixpoint increases (l : list num) : nat :=
  match l with
  | prev :: ((cur :: _) as t) =>
      ((if (cur >? prev)%num then 1 else 0) + increases t)%nat
  | _ => 0%nat
  end.

(** The period-over-period growth rates of a series. *)
Fixpoint growthRates (l : list num) : list num :=
  match l with
  | prev :: ((cur :: _) as t) => Utils.growthRate prev cur :: growthRates t
  | _ => []
  end.

Definition revenueMomentum (c : Company) : Q :=
  fraction (increases (map revenue (years c))) (length (years c) - 1).

Definition profitMomentum (c : Company) : Q :=
  fraction (increases (map netProfit (years c))) (length (years c) - 1).

Definition acceleration (c : Company) : Q :=
  let rates := growthRates (map revenue (years c)) in
  if (2 <=? length rates)%nat
  then fraction (increases rates) (length rates - 1)
  else 0.

Definition composite (c : Company) : Q :=
  revenueMomentum c * 40 + profitMomentum c * 40 + acceleration c * 20.

(** Builders for concrete inputs. *)
Definition fiscalYear (r p d e m : Q) : FiscalYear :=
  {| fy := EmptyString; revenue := Fin r; netProfit := Fin p;
     totalDebt := Fin d; totalEquity := Fin e; marketCap := Fin m |}.

Definition mkCompany (l : list FiscalYear) : Company :=
  {| company := EmptyString; ticker := EmptyString; sector := EmptyString;
     years := l |}.

(** Three periods of growing revenue and profit. *)
Definition growing3 : Company :=
  mkCompany [fiscalYear 100 10 0 0 0; fiscalYear 200 20 0 0 0;
             fiscalYear 400 50 0 0 0].

(** Forty-two periods: revenue falls once and is flat afterwards, profit is
    flat. *)
Definition momentum42 : Company :=
  mkCompany (fiscalYear 100 10 0 0 0 :: repeat (fiscalYear 50 10 0 0 0) 41).

(** The single-record scenario of the specification. *)
Definition scenario1 : Company :=
  mkCompany [fiscalYear 1000 100 200 500 1500].

(** A single record with profit margin 12 and return on equity 12. *)
Definition roe12 : Company :=
  mkCompany [fiscalYear 1000 120 0 1000 0].


(** The latest fiscal record of a company, when it has one. *)
Definition latestYear (c : Company) : option FiscalYear :=
  nth_error (years c) (length (years c) - 1).

(** Severity order of the risk bands: low < medium < high. *)
Definition riskRank (r : RiskLevel) : nat :=
  match r with
  | low => 0
  | medium => 1
  | high => 2
  end.

(** The band of a finite risk score, as the last step of [calculateRisk]
    reads it. *)
Definition riskBand (riskScore : Q) : RiskLevel :=
  if num_ge (Fin riskScore) (Fin 65) then high
  else if num_ge (Fin riskScore) (Fin 35) then medium
  else low.

(** Two companies that differ in leverage only. *)
Definition lowDebt : Company :=
  mkCompany [fiscalYear 1000 40 500 1000 1000].

Definition highDebt : Company :=
  mkCompany [fiscalYear 1000 40 3500 1000 1000].

(** The conditions of the four classification rules. *)
Definition rule1 (undervalScore healthScore : num) : bool :=
  (undervalScore >? Fin 70)%num && (healthScore >? Fin 60)%num.

Definition rule2 (healthScore : num) (metrics : Metrics) : bool :=
  (healthScore <? Fin 40)%num
  && ((debtToEquity metrics >? Fin 3)%num || (profitMargin metrics <? Fin 0)%num).

Definition rule3 (momentum healthScore : num) : bool :=
  (momentum >? Fin 75)%num && (healthScore >? Fin 50)%num.

Definition rule4 (risk : RiskLevel) (metrics : Metrics) (healthScore : num) : bool :=
  isLow risk && (m_marketCap metrics >? Fin 50000)%num
  && (healthScore >? Fin 50)%num.

(** The five outcomes of the classifier. *)
Definition outcomes : list Classification :=
  [ {| category := undervalued; confidence := Fin 0.9 |};
    {| category := overvalued; confidence := Fin 0.85 |};
    {| category := growth; confidence := Fin 0.8 |};
    {| category := stable; confidence := Fin 0.85 |};
    {| category := neutral; confidence := Fin 0.5 |} ].

(** A population of two: a cheap, profitable, growing company and an
    expensive, indebted one. *)
Definition leader : Company :=
  mkCompany [fiscalYear 100 10 10 100 100; fiscalYear 200 30 10 100 100;
             fiscalYear 400 100 10 100 100].

Definition laggard : Company :=
  mkCompany [fiscalYear 100 10 10 100 1000; fiscalYear 100 10 500 100 1000;
             fiscalYear 100 1 500 100 1000].

(** Two outcomes that agree: both raise, or both return the same number. *)
Definition outcome_eqv (a b : outcome num) : Prop :=
  match a, b with
  | Ret x, Ret y => x =n= y
  | TypeError, TypeError => True
  | _, _ => False
  end.

(** The rational behind a finite number. *)
Definition toQ (a : num) : Q :=
  match a with
  | Fin q => q
  | _ => 0
  end.










(** A company without any fiscal record. *)
Definition noRecords : Company := mkCompany [].

(** The step of the loop of [findGrowthLeaders] on one pair of records. *)
Definition leaderStep (cur prev : FiscalYear) (consistentGrowth : bool) : bool :=
  if consistentGrowth then
    if num_le (revenue cur) (revenue prev)
       || num_le (netProfit cur) (netProfit prev)
    then false
    else consistentGrowth
  else consistentGrowth.

(** One category of [generateInsights]: the first test that holds appends
    its insight. *)
Definition insightStep (b1 b2 : bool) (x y : Insight) (l : list Insight) : list Insight :=
  if b1 then l ++ [x] else if b2 then l ++ [y] else l.





(** A large profitable company with little debt, over three periods. *)
Definition blueChip : Company :=
  mkCompany [fiscalYear 90000 9000 1000 50000 120000;
             fiscalYear 100000 12000 1000 55000 130000;
             fiscalYear 125000 16000 1000 60000 150000].

(** The market capitalisation of the latest record of an entry of
    [getLatestData], 0 without a record. *)
Definition latestMarketCap (d : DataLoader.LatestData) : Q :=
  match DataLoader.latest d with
  | Some y => toQ (marketCap y)
  | None => 0
  end.


(** Revenue and profit are finite and positive in every period. *)
Definition positiveSeries (c : Company) : Prop :=
  Forall (fun y => exists r p,
              revenue y = Fin r /\ netProfit y = Fin p /\ 0 < r /\ 0 < p)
    (years c).

(** Three periods in which profit grows from nothing: 0, 10, 20. *)
Definition fromNothing : Company :=
  mkCompany [fiscalYear 100 0 0 0 0; fiscalYear 200 10 0 0 0;
             fiscalYear 400 20 0 0 0].

(* ================================================================== *)
(** ** Rational comparisons and the arithmetic of [num] *)

Lemma Qltb_lt (p q : Q) : Qltb p q = true <-> p < q.
Proof.
  unfold Qltb. rewrite negb_true_iff.
  destruct (Qle_bool q p) eqn:E.
  - apply Qle_bool_iff in E. split; [discriminate | intros H; exfalso; lra].
  - split; [intros _ | reflexivity].
    destruct (Qlt_le_dec p q) as [H | H]; [exact H |].
    apply Qle_bool_iff in H. congruence.
Qed.

Lemma Qltb_ge (p q : Q) : Qltb p q = false <-> q <= p.
Proof.
  destruct (Qltb p q) eqn:E.
  - apply Qltb_lt in E. split; [discriminate | intros H; exfalso; lra].
  - split; [intros _ | reflexivity].
    destruct (Qlt_le_dec p q) as [H | H]; [| exact H].
    apply Qltb_lt in H. congruence.
Qed.

Lemma Qeq_bool_false (p q : Q) : Qeq_bool p q = false <-> ~ p == q.
Proof.
  split.
  - apply Qeq_bool_neq.
  - intros H. destruct (Qeq_bool p q) eqn:E; [| reflexivity].
    apply Qeq_bool_iff in E. contradiction.
Qed.

(** Case analysis on the boolean comparisons of rationals in the goal. *)
Ltac qcases :=
  repeat match goal with
  | |- context [Qltb ?p ?q] =>
      let E := fresh "E" in
      destruct (Qltb p q) eqn:E;
      [apply Qltb_lt in E | apply Qltb_ge in E]
  | |- context [Qeq_bool ?p ?q] =>
      let E := fresh "E" in
      destruct (Qeq_bool p q) eqn:E;
      [apply Qeq_bool_iff in E | apply Qeq_bool_false in E]
  end.

#[global] Instance num_eqv_Equivalence : Equivalence num_eqv.
Proof.
  split.
  - intros [p | | |]; simpl; auto. reflexivity.
  - intros [p | | |] [q | | |]; simpl; auto. intros H. symmetry. exact H.
  - intros [p | | |] [q | | |] [r | | |]; simpl; auto; try contradiction.
    intros H1 H2. rewrite H1. exact H2.
Qed.

Lemma Qclamp_spec (x lo hi : Q) :
  lo <= hi ->
  (x < lo /\ Qclamp x lo hi == lo)
  \/ (lo <= x <= hi /\ Qclamp x lo hi == x)
  \/ (hi < x /\ Qclamp x lo hi == hi).
Proof.
  intros Hlh. unfold Qclamp.
  destruct (Q.max_spec x lo) as [[H1 E1] | [H1 E1]];
    destruct (Q.min_spec (Qmax x lo) hi) as [[H2 E2] | [H2 E2]];
    rewrite E2; rewrite ?E1; rewrite E1 in H2.
  - left. split; [exact H1 | reflexivity].
  - left. split; [exact H1 | lra].
  - destruct (Qlt_le_dec hi x).
    + exfalso; lra.
    + right; left. split; [lra | reflexivity].
  - destruct (Qeq_dec x hi) as [E | E].
    + right; left. split; [lra | lra].
    + right; right. split; [lra | reflexivity].
Qed.

(** [clamp] of a finite value between finite bounds is finite, and is the
    rational clamp. *)
Lemma clamp_Fin (x lo hi : Q) :
  exists r, Utils.clamp (Fin x) (Fin lo) (Fin hi) = Fin r /\ r == Qclamp x lo hi.
Proof.
  unfold Qclamp.
  cbv [Utils.clamp Math.min Math.max Math.min2 Math.max2 fold_left num_lt].
  qcases; eexists; (split; [reflexivity |]).
  - rewrite (Q.max_r x lo) by lra. rewrite Q.min_r by lra. reflexivity.
  - rewrite (Q.max_r x lo) by lra. rewrite Q.min_l by lra. reflexivity.
  - rewrite (Q.max_l x lo) by lra. rewrite Q.min_r by lra. reflexivity.
  - rewrite (Q.max_l x lo) by lra. rewrite Q.min_l by lra. reflexivity.
Qed.

Lemma inject_nat_pos (n : nat) : (0 < n)%nat -> 0 < inject_Z (Z.of_nat n).
Proof.
  intros H. change 0 with (inject_Z 0). rewrite <- Zlt_Qlt. lia.
Qed.

Lemma inject_nat_le (m n : nat) :
  (m <= n)%nat -> inject_Z (Z.of_nat m) <= inject_Z (Z.of_nat n).
Proof.
  intros H. rewrite <- Zle_Qle. lia.
Qed.

Lemma ofNat_div (k m : nat) :
  m <> 0%nat -> (ofNat k / ofNat m)%num = Fin (fraction k m).
Proof.
  intros Hm. unfold num_div, ofNat, fraction.
  destruct (Qeq_bool (inject_Z (Z.of_nat m)) 0) eqn:E; [| reflexivity].
  apply Qeq_bool_iff in E.
  pose proof (@inject_nat_pos m ltac:(lia)) as Hpos.
  rewrite E in Hpos. exfalso. lra.
Qed.

(* ================================================================== *)
(** ** The loops of [calculateMomentumScore] *)

Lemma fold_left_shift {S : Type} (body : nat -> S -> S) (k : nat) (init : S) :
  fold_left (fun s i => body i s) (seq 2 k) init
  = fold_left (fun s i => body (Datatypes.S i) s) (seq 1 k) init.
Proof.
  rewrite <- (seq_shift k 1).
  generalize (seq 1 k) as idx. intros idx. revert init.
  induction idx as [| i idx IH]; intros init; simpl; [reflexivity | apply IH].
Qed.

(** A loop over the indices [1 .. length l - 1] that reads [l[i]] and
    [l[i-1]] is a fold over the consecutive pairs of [l]. *)
Lemma forFrom1_foldPairs {A S : Type} (step : A -> A -> S -> S) (l : list A) :
  forall (body : nat -> S -> S),
    (forall i cur prev s,
        (1 <= i)%nat ->
        nth_error l i = Some cur -> nth_error l (i - 1) = Some prev ->
        body i s = step cur prev s) ->
    forall init, forFrom1 (length l) body init = foldPairs step l init.
Proof.
  induction l as [| a l IH]; intros body Hbody init; [reflexivity |].
  destruct l as [| b t]; [reflexivity |].
  unfold forFrom1.
  replace (length (a :: b :: t) - 1)%nat with (Datatypes.S (length t))
    by (simpl; lia).
  cbn [seq fold_left]. rewrite fold_left_shift.
  change (foldPairs step (a :: b :: t) init)
    with (foldPairs step (b :: t) (step b a init)).
  rewrite (Hbody 1%nat b a init) by (reflexivity || lia).
  rewrite <- (IH (fun i => body (Datatypes.S i))).
  - unfold forFrom1. replace (length (b :: t) - 1)%nat with (length t)
      by (simpl; lia).
    reflexivity.
  - intros i cur prev s Hi Hcur Hprev. apply Hbody.
    + lia.
    + exact Hcur.
    + replace (Datatypes.S i - 1)%nat with (Datatypes.S (i - 1)) by lia.
      exact Hprev.
Qed.

Lemma foldPairs_cons2 {A S : Type} (step : A -> A -> S -> S) a b t s :
  foldPairs step (a :: b :: t) s = foldPairs step (b :: t) (step b a s).
Proof. reflexivity. Qed.

Lemma increases_cons2 a b t :
  increases (a :: b :: t)
  = ((if (b >? a)%num then 1 else 0) + increases (b :: t))%nat.
Proof. reflexivity. Qed.

Lemma growthRates_cons2 a b t :
  growthRates (a :: b :: t) = Utils.growthRate a b :: growthRates (b :: t).
Proof. reflexivity. Qed.

Lemma countLoop_foldPairs {A : Type} (l : list A) (test : A -> A -> bool) :
  countLoop l test
  = foldPairs (fun cur prev count => if test cur prev then S count else count)
      l 0%nat.
Proof.
  unfold countLoop. apply forFrom1_foldPairs.
  intros i cur prev s _ Hcur Hprev. rewrite Hcur, Hprev. reflexivity.
Qed.

Lemma foldPairs_increases {A : Type} (f : A -> num) (l : list A) :
  forall acc,
    foldPairs (fun cur prev count => if (f cur >? f prev)%num then S count else count)
      l acc
    = (acc + increases (map f l))%nat.
Proof.
  induction l as [| a l IH]; intros acc; [simpl; lia |].
  destruct l as [| b t]; [simpl; lia |].
  rewrite foldPairs_cons2, IH.
  change (map f (a :: b :: t)) with (f a :: f b :: map f t).
  rewrite increases_cons2.
  change (f b :: map f t) with (map f (b :: t)).
  destruct (f b >? f a)%num; lia.
Qed.

Lemma countLoop_increases {A : Type} (f : A -> num) (l : list A) :
  countLoop l (fun cur prev => (f cur >? f prev)%num) = increases (map f l).
Proof.
  rewrite countLoop_foldPairs.
  apply (foldPairs_increases f l 0).
Qed.

Lemma foldPairs_growthRates (l : list FiscalYear) :
  forall acc,
    foldPairs
      (fun cur prev rates => rates ++ [Utils.growthRate (revenue prev) (revenue cur)])
      l acc
    = acc ++ growthRates (map revenue l).
Proof.
  induction l as [| a l IH]; intros acc; [simpl; now rewrite app_nil_r |].
  destruct l as [| b t]; [simpl; now rewrite app_nil_r |].
  rewrite foldPairs_cons2, IH.
  change (map revenue (a :: b :: t)) with (revenue a :: revenue b :: map revenue t).
  rewrite growthRates_cons2. rewrite <- app_assoc. reflexivity.
Qed.

Lemma growthRates_length (l : list num) :
  length (growthRates l) = (length l - 1)%nat.
Proof.
  induction l as [| a l IH]; [reflexivity |].
  destruct l as [| b t]; [reflexivity |].
  rewrite growthRates_cons2. cbn [length] in *. rewrite IH. lia.
Qed.


(** The score of a company with at least three periods, in closed form. *)
Lemma calculateMomentumScore_composite (c : Company) :
  (3 <= length (years c))%nat ->
  calculateMomentumScore c
  = Utils.clamp (Fin (composite c * 100)) (Fin 0) (Fin 100).
Proof.
  intros Hn. unfold calculateMomentumScore.
  destruct (length (years c) <? 3)%nat eqn:E; [apply Nat.ltb_lt in E; lia |].
  cbv zeta.
  rewrite (countLoop_increases revenue), (countLoop_increases netProfit).
  rewrite (@forFrom1_foldPairs _ _
             (fun cur prev rates =>
                rates ++ [Utils.growthRate (revenue prev) (revenue cur)])).
  2:{ intros i cur prev s _ Hcur Hprev. rewrite Hcur, Hprev. reflexivity. }
  rewrite foldPairs_growthRates. cbn [app].
  rewrite (countLoop_increases (fun x => x)), map_id.
  rewrite !ofNat_div by lia.
  unfold composite, revenueMomentum, profitMomentum, acceleration.
  destruct (2 <=? length (growthRates (map revenue (years c))))%nat eqn:E2.
  - rewrite ofNat_div; [reflexivity |].
    apply Nat.leb_le in E2. lia.
  - reflexivity.
Qed.

(* ================================================================== *)
(** ** Momentum score *)

Lemma fraction_nonneg (k m : nat) : 0 <= fraction k m.
Proof.
  unfold fraction. destruct m as [| m].
  - simpl. unfold Qdiv, Qinv. simpl. rewrite Qmult_0_r. lra.
  - apply Qle_shift_div_l.
    + apply inject_nat_pos. lia.
    + rewrite Qmult_0_l. apply (@inject_nat_le 0 k). lia.
Qed.

Lemma fraction_zero (m : nat) : fraction 0 m == 0.
Proof. unfold fraction. simpl. unfold Qdiv. apply Qmult_0_l. Qed.

(** One pair out of [m] already weighs [1 / m]: times a weight [w >= m] it
    reaches 1. *)
Lemma fraction_weight_ge_1 (k m : nat) (w : Z) :
  (1 <= k)%nat -> (1 <= m)%nat -> (Z.of_nat m <= w)%Z ->
  1 <= fraction k m * inject_Z w.
Proof.
  intros Hk Hm Hw. unfold fraction.
  pose proof (@inject_nat_pos m ltac:(lia)) as HM.
  pose proof (@inject_nat_le 1 k Hk) as HK.
  assert (HW : inject_Z (Z.of_nat m) <= inject_Z w) by (rewrite <- Zle_Qle; lia).
  change (inject_Z (Z.of_nat 1)) with 1 in HK.
  set (K := inject_Z (Z.of_nat k)) in *.
  set (M := inject_Z (Z.of_nat m)) in *.
  set (W := inject_Z w) in *.
  assert (E : K / M * W == (K * W) / M) by (field; lra).
  rewrite E. apply Qle_shift_div_l; [exact HM |]. nra.
Qed.

(** The composite of a company with at least three periods, over the three
    counts it is made of. *)
Lemma composite_counts (c : Company) :
  (3 <= length (years c))%nat ->
  exists r p a : nat,
    composite c
    = fraction r (length (years c) - 1) * 40
      + fraction p (length (years c) - 1) * 40
      + fraction a (length (years c) - 2) * 20.
Proof.
  intros Hn. unfold composite, revenueMomentum, profitMomentum, acceleration.
  cbv zeta. rewrite growthRates_length, length_map.
  destruct (2 <=? length (years c) - 1)%nat eqn:E;
    [| apply Nat.leb_gt in E; lia].
  replace (length (years c) - 1 - 1)%nat with (length (years c) - 2)%nat by lia.
  do 3 eexists. reflexivity.
Qed.

Lemma composite_nonneg (c : Company) : 0 <= composite c.
Proof.
  unfold composite, revenueMomentum, profitMomentum, acceleration. cbv zeta.
  pose proof (fraction_nonneg (increases (map revenue (years c)))
                (length (years c) - 1)).
  pose proof (fraction_nonneg (increases (map netProfit (years c)))
                (length (years c) - 1)).
  pose proof (fraction_nonneg (increases (growthRates (map revenue (years c))))
                (length (growthRates (map revenue (years c))) - 1)).
  destruct (2 <=? length (growthRates (map revenue (years c))))%nat; lra.
Qed.

(** A positive composite over at most 22 periods is at least 1. *)
Lemma composite_zero_or_ge_1 (c : Company) :
  (3 <= length (years c) <= 22)%nat ->
  composite c == 0 \/ 1 <= composite c.
Proof.
  intros [Hlo Hhi].
  destruct (composite_counts c Hlo) as (r & p & a & E). rewrite E.
  set (n := length (years c)) in *.
  pose proof (fraction_nonneg r (n - 1)) as Hr.
  pose proof (fraction_nonneg p (n - 1)) as Hp.
  pose proof (fraction_nonneg a (n - 2)) as Ha.
  destruct r as [| r].
  - destruct p as [| p].
    + destruct a as [| a].
      * left. rewrite !fraction_zero. lra.
      * right.
        pose proof (@fraction_weight_ge_1 (S a) (n - 2) 20
                      ltac:(lia) ltac:(lia) ltac:(lia)) as H.
        change (inject_Z 20) with 20 in H. lra.
    + right.
      pose proof (@fraction_weight_ge_1 (S p) (n - 1) 40
                    ltac:(lia) ltac:(lia) ltac:(lia)) as H.
      change (inject_Z 40) with 40 in H. lra.
  - right.
    pose proof (@fraction_weight_ge_1 (S r) (n - 1) 40
                  ltac:(lia) ltac:(lia) ltac:(lia)) as H.
    change (inject_Z 40) with 40 in H. lra.
Qed.

(** The score of a company with at least three periods is a finite
    number: the rational clamp of a hundred times the composite. *)
Lemma calculateMomentumScore_clamp (c : Company) :
  (3 <= length (years c))%nat ->
  exists s : Q,
    calculateMomentumScore c = Fin s
    /\ s == Qclamp (composite c * 100) 0 100.
Proof.
  intros Hn. rewrite (calculateMomentumScore_composite c Hn).
  apply clamp_Fin.
Qed.

(** A non-negative [x] times 100, clamped to [0, 100]: saturated from 1
    on, untouched below. *)
Lemma Qclamp_percent (x : Q) :
  0 <= x ->
  (1 <= x -> Qclamp (x * 100) 0 100 == 100)
  /\ (x < 1 -> Qclamp (x * 100) 0 100 == x * 100).
Proof.
  intros H0.
  destruct (@Qclamp_spec (x * 100) 0 100 ltac:(lra))
    as [[H E] | [[H E] | [H E]]]; rewrite E; split; intros H1; lra.
Qed.



(** C5.  With between 3 and 22 fiscal periods the momentum score is exactly
    0 or exactly 100: the smallest positive composite,
    [min(40/(n-1), 20/(n-2))], is at least 1, so times 100 it reaches the
    ceiling. *)
Theorem momentum_score_zero_or_hundred (c : Company) :
  (3 <= length (years c) <= 22)%nat ->
  (calculateMomentumScore c =n= Fin 0 \/ calculateMomentumScore c =n= Fin 100)
  /\ (composite c == 0 \/ 1 <= composite c)
  /\ 1 <= Qmin (40 / inject_Z (Z.of_nat (length (years c) - 1)))
             (20 / inject_Z (Z.of_nat (length (years c) - 2))).
Proof.
  intros Hn. pose proof (composite_zero_or_ge_1 c Hn) as Hc.
  destruct Hn as [Hlo Hhi]. split; [| split; [exact Hc |]].
  - destruct (calculateMomentumScore_clamp c Hlo) as (s & Hs & Es).
    rewrite Hs. simpl. rewrite Es.
    destruct (Qclamp_percent (composite_nonneg c)) as [Hge Hlt].
    destruct Hc as [Hc | Hc].
    + left. rewrite Hlt by lra. lra.
    + right. apply Hge. exact Hc.
  - apply Q.min_glb.
    + pose proof (@fraction_weight_ge_1 1 (length (years c) - 1) 40
                    ltac:(lia) ltac:(lia) ltac:(lia)) as H.
      unfold fraction in H. change (inject_Z (Z.of_nat 1)) with 1 in H.
      change (inject_Z 40) with 40 in H.
      assert (Hpos : 0 < inject_Z (Z.of_nat (length (years c) - 1)))
        by (apply inject_nat_pos; lia).
      setoid_replace (40 / inject_Z (Z.of_nat (length (years c) - 1)))
        with (1 / inject_Z (Z.of_nat (length (years c) - 1)) * 40)
        by (field; lra).
      exact H.
    + pose proof (@fraction_weight_ge_1 1 (length (years c) - 2) 20
                    ltac:(lia) ltac:(lia) ltac:(lia)) as H.
      unfold fraction in H. change (inject_Z (Z.of_nat 1)) with 1 in H.
      change (inject_Z 20) with 20 in H.
      assert (Hpos : 0 < inject_Z (Z.of_nat (length (years c) - 2)))
        by (apply inject_nat_pos; lia).
      setoid_replace (20 / inject_Z (Z.of_nat (length (years c) - 2)))
        with (1 / inject_Z (Z.of_nat (length (years c) - 2)) * 20)
        by (field; lra).
      exact H.
Qed.

Lemma momentum_score_zero_or_hundred_witness :
  (3 <= length (years growing3) <= 22)%nat
  /\ (calculateMomentumScore growing3 =n= Fin 0
      \/ calculateMomentumScore growing3 =n= Fin 100).
Proof.
  split; [simpl; lia |].
  apply (momentum_score_zero_or_hundred growing3). simpl. lia.
Defined.

(** Below 42 periods a composite of exactly one half is out of reach. *)
Lemma composite_not_half (c : Company) :
  (3 <= length (years c) <= 41)%nat ->
  ~ composite c * 100 == 50.
Proof.
  intros [Hlo Hhi] Hhalf.
  destruct (composite_counts c Hlo) as (r & p & a & E). rewrite E in Hhalf.
  set (n := length (years c)) in *.
  pose proof (fraction_nonneg r (n - 1)) as Hr.
  pose proof (fraction_nonneg p (n - 1)) as Hp.
  pose proof (fraction_nonneg a (n - 2)) as Ha.
  destruct r as [| r].
  - destruct p as [| p].
    + rewrite !fraction_zero in Hhalf. unfold fraction in Hhalf.
      assert (HM : 0 < inject_Z (Z.of_nat (n - 2)))
        by (apply inject_nat_pos; lia).
      assert (H40 : inject_Z (Z.of_nat a) * 40 == inject_Z (Z.of_nat (n - 2))).
      { set (A := inject_Z (Z.of_nat a)) in *.
        set (M := inject_Z (Z.of_nat (n - 2))) in *.
        assert (EA : A == A / M * M) by (field; lra).
        assert (Hx : A / M == 1 # 40).
        { clear EA. generalize dependent (A / M). intros x Hx. lra. }
        rewrite Hx in EA. rewrite EA. field. }
      change 40 with (inject_Z 40) in H40. rewrite <- inject_Z_mult in H40.
      apply (proj1 (inject_Z_injective _ _)) in H40. lia.
    + pose proof (@fraction_weight_ge_1 (S p) (n - 1) 40
                    ltac:(lia) ltac:(lia) ltac:(lia)) as H.
      change (inject_Z 40) with 40 in H. lra.
  - pose proof (@fraction_weight_ge_1 (S r) (n - 1) 40
                  ltac:(lia) ltac:(lia) ltac:(lia)) as H.
    change (inject_Z 40) with 40 in H. lra.
Qed.

(** C4, as stated, fails: a company with 42 periods, whose revenue falls
    once and whose growth rate therefore rises once out of 40 pairs, has
    composite [20/40] and scores exactly 50. *)
Lemma momentum_fifty_with_42_periods :
  (3 <= length (years momentum42))%nat
  /\ calculateMomentumScore momentum42 =n= Fin 50.
Proof.
  split; [simpl; lia | vm_compute; reflexivity].
Qed.

(** C4, amended.  Among the companies with at most 41 fiscal periods, the
    momentum score is exactly 50 if and only if the company has fewer than
    3 periods. *)
Theorem momentum_neutral_iff_short (c : Company) :
  (length (years c) <= 41)%nat ->
  (calculateMomentumScore c =n= Fin 50 <-> (length (years c) < 3)%nat).
Proof.
  intros Hhi. split.
  - intros Hs.
    destruct (le_lt_dec 3 (length (years c))) as [Hlo | Hlo]; [| exact Hlo].
    exfalso.
    destruct (calculateMomentumScore_clamp c Hlo) as (s & Es & Ec).
    rewrite Es in Hs. simpl in Hs. rewrite Ec in Hs.
    destruct (Qclamp_percent (composite_nonneg c)) as [Hge Hlt].
    destruct (Qlt_le_dec (composite c) 1) as [H1 | H1].
    + apply (@composite_not_half c ltac:(lia)).
      rewrite <- (Hlt H1). exact Hs.
    + rewrite (Hge H1) in Hs. discriminate Hs.
  - intros Hn. unfold calculateMomentumScore.
    apply Nat.ltb_lt in Hn. rewrite Hn. reflexivity.
Qed.

Lemma momentum_neutral_iff_short_witness :
  (length (years growing3) <= 41)%nat
  /\ (calculateMomentumScore growing3 =n= Fin 50
      <-> (length (years growing3) < 3)%nat).
Proof.
  split; [simpl; lia | apply (momentum_neutral_iff_short growing3); simpl; lia].
Defined.

(* ================================================================== *)
(** ** Safe division and the derived metrics *)


Lemma latestYear_nonempty (c : Company) :
  years c <> [] -> exists y, latestYear c = Some y /\ In y (years c).
Proof.
  intros Hne. unfold latestYear.
  destruct (nth_error (years c) (length (years c) - 1)) as [y |] eqn:E.
  - exists y. split; [reflexivity |]. eapply nth_error_In. exact E.
  - apply nth_error_None in E. destruct (years c); [contradiction | simpl in E; lia].
Qed.



(* ================================================================== *)
(** ** Health score *)

(** The health score is the four steps in sequence, from 0, then the
    clamp. *)
Lemma calculateHealthScore_steps (c : Company) (m : Metrics) :
  calculateMetrics c = Ret m ->
  calculateHealthScore c
  = (score <- addGrowth c (addDebt m (addRoe m (addProfitMargin m (Fin 0)))) ;;
     Ret (Utils.clamp score (Fin 0) (Fin 100))).
Proof.
  intros Hm. unfold calculateHealthScore. rewrite Hm. reflexivity.
Qed.

(** C2, as stated, fails: a return on equity of 12 is above 10 and adds 10
    points, not 15; the company scores 15 + 10 + 30 = 55. *)
Lemma roe_of_12_adds_10 :
  exists m,
    calculateMetrics roe12 = Ret m
    /\ roe m =n= Fin 12
    /\ (roe m >? Fin 20)%num = false
    /\ (roe m >? Fin 10)%num = true
    /\ addRoe m (Fin 0) =n= Fin 10
    /\ ~ addRoe m (Fin 0) =n= Fin 15
    /\ calculateHealthScore roe12 = Ret (Fin 55).
Proof.
  eexists. split; [reflexivity |].
  repeat split; try (vm_compute; reflexivity).
  vm_compute. discriminate.
Qed.

(** C2, amended.  In the profitability part of the health score the return
    on equity adds 20 points when it is above 20, else 15 when above 15,
    else 10 when above 10, else 5 when above 5, else nothing. *)
Theorem roe_bucket_thresholds (c : Company) (m : Metrics) :
  calculateMetrics c = Ret m ->
  calculateHealthScore c
  = (score <- addGrowth c (addDebt m (addRoe m (addProfitMargin m (Fin 0)))) ;;
     Ret (Utils.clamp score (Fin 0) (Fin 100)))
  /\ forall s : Q,
      ((roe m >? Fin 20)%num = true -> addRoe m (Fin s) = Fin (s + 20))
      /\ ((roe m >? Fin 20)%num = false -> (roe m >? Fin 15)%num = true ->
          addRoe m (Fin s) = Fin (s + 15))
      /\ ((roe m >? Fin 15)%num = false -> (roe m >? Fin 10)%num = true ->
          addRoe m (Fin s) = Fin (s + 10))
      /\ ((roe m >? Fin 10)%num = false -> (roe m >? Fin 5)%num = true ->
          addRoe m (Fin s) = Fin (s + 5))
      /\ ((roe m >? Fin 5)%num = false -> addRoe m (Fin s) = Fin s).
Proof.
  intros Hm. split; [apply calculateHealthScore_steps; exact Hm |].
  intros s. unfold addRoe.
  destruct (roe m) as [r | | |]; cbn [num_gt num_lt];
    try (repeat split; intros; congruence).
  repeat split.
  - intros ->. reflexivity.
  - intros -> ->. reflexivity.
  - intros H15 H10.
    assert (H20 : Qltb 20 r = false)
      by (apply Qltb_ge; apply Qltb_ge in H15; lra).
    rewrite H20, H15, H10. reflexivity.
  - intros H10 H5.
    assert (H15 : Qltb 15 r = false)
      by (apply Qltb_ge; apply Qltb_ge in H10; lra).
    assert (H20 : Qltb 20 r = false)
      by (apply Qltb_ge; apply Qltb_ge in H10; lra).
    rewrite H20, H15, H10, H5. reflexivity.
  - intros H5.
    assert (H10 : Qltb 10 r = false)
      by (apply Qltb_ge; apply Qltb_ge in H5; lra).
    assert (H15 : Qltb 15 r = false)
      by (apply Qltb_ge; apply Qltb_ge in H5; lra).
    assert (H20 : Qltb 20 r = false)
      by (apply Qltb_ge; apply Qltb_ge in H5; lra).
    rewrite H20, H15, H10, H5. reflexivity.
Qed.

Lemma roe_bucket_thresholds_witness :
  exists m,
    calculateMetrics roe12 = Ret m
    /\ calculateHealthScore roe12
       = (score <- addGrowth roe12
                     (addDebt m (addRoe m (addProfitMargin m (Fin 0)))) ;;
          Ret (Utils.clamp score (Fin 0) (Fin 100)))
    /\ ((roe m >? Fin 15)%num = false -> (roe m >? Fin 10)%num = true ->
        addRoe m (Fin 15) = Fin (15 + 10)).
Proof.
  eexists. split; [reflexivity |].
  split.
  - apply (roe_bucket_thresholds roe12 eq_refl).
  - apply (proj2 (roe_bucket_thresholds roe12 eq_refl) 15).
Defined.

(** C3, as stated, fails: in the single-record scenario the profit margin
    is exactly 10, which is not above 10, so it adds 10 points (not 15) and
    the health score is 55, not 60. *)
Lemma scenario1_health_is_not_60 :
  exists m h,
    calculateMetrics scenario1 = Ret m
    /\ calculateHealthScore scenario1 = Ret h
    /\ profitMargin m =n= Fin 10
    /\ addProfitMargin m (Fin 0) =n= Fin 10
    /\ ~ addProfitMargin m (Fin 0) =n= Fin 15
    /\ h =n= Fin 55
    /\ ~ h =n= Fin 60.
Proof.
  do 2 eexists. split; [reflexivity |]. split; [reflexivity |].
  repeat split; try (vm_compute; reflexivity); vm_compute; discriminate.
Qed.

(** C3, amended.  For the single record revenue=1000, netProfit=100,
    totalDebt=200, totalEquity=500, marketCap=1500 the metrics are
    profitMargin=10, ROE=20, debtToEquity=0.4, priceToEquity=3,
    priceToSales=1.5, and the health score is 55: profitability 10 + 15,
    leverage 30, growth 0. *)
Theorem scenario1_metrics_and_health :
  exists m,
    calculateMetrics scenario1 = Ret m
    /\ profitMargin m =n= Fin 10
    /\ roe m =n= Fin 20
    /\ debtToEquity m =n= Fin 0.4
    /\ priceToEquity m =n= Fin 3
    /\ priceToSales m =n= Fin 1.5
    /\ addProfitMargin m (Fin 0) =n= Fin 10
    /\ addRoe m (Fin 10) =n= Fin (10 + 15)
    /\ addDebt m (Fin 25) =n= Fin (25 + 30)
    /\ addGrowth scenario1 (Fin 55) = Ret (Fin 55)
    /\ calculateHealthScore scenario1 = Ret (Fin 55).
Proof.
  eexists. split; [reflexivity |].
  repeat split; vm_compute; reflexivity.
Qed.

(* ================================================================== *)
(** ** Risk level *)

Lemma num_lt_eqv (a a' b b' : num) :
  a =n= a' -> b =n= b' -> num_lt a b = num_lt a' b'.
Proof.
  destruct a, a', b, b'; simpl; try contradiction; try reflexivity.
  intros Ha Hb. unfold Qltb. rewrite Ha, Hb. reflexivity.
Qed.

Lemma num_lt_trans (a b c : num) :
  num_lt a b = true -> num_lt b c = true -> num_lt a c = true.
Proof.
  destruct a, b, c; simpl; try discriminate; try reflexivity.
  rewrite !Qltb_lt. intros; lra.
Qed.

(** More leverage never lowers the leverage part of the risk score. *)
Lemma addDebtRisk_mono (m1 m2 : Metrics) (s : Q) :
  (debtToEquity m1 <? debtToEquity m2)%num = true ->
  exists a b,
    addDebtRisk m1 (Fin s) = Fin a /\ addDebtRisk m2 (Fin s) = Fin b /\ a <= b.
Proof.
  intros Hlt. unfold addDebtRisk, num_gt.
  destruct (Fin 3 <? debtToEquity m1)%num eqn:E3.
  { rewrite (num_lt_trans _ _ _ E3 Hlt). do 2 eexists.
    repeat split; try reflexivity. simpl. lra. }
  destruct (Fin 2 <? debtToEquity m1)%num eqn:E2.
  { rewrite (num_lt_trans _ _ _ E2 Hlt).
    destruct (Fin 3 <? debtToEquity m2)%num; do 2 eexists;
      (repeat split; try reflexivity); simpl; lra. }
  destruct (Fin 1 <? debtToEquity m1)%num eqn:E1.
  { rewrite (num_lt_trans _ _ _ E1 Hlt).
    destruct (Fin 3 <? debtToEquity m2)%num;
      destruct (Fin 2 <? debtToEquity m2)%num; do 2 eexists;
      (repeat split; try reflexivity); simpl; lra. }
  destruct (Fin 3 <? debtToEquity m2)%num;
    destruct (Fin 2 <? debtToEquity m2)%num;
    destruct (Fin 1 <? debtToEquity m2)%num; do 2 eexists;
    (repeat split; try reflexivity); simpl; lra.
Qed.

Lemma addProfitabilityRisk_mono (m1 m2 : Metrics) (a b : Q) :
  profitMargin m1 =n= profitMargin m2 -> a <= b ->
  exists a' b',
    addProfitabilityRisk m1 (Fin a) = Fin a'
    /\ addProfitabilityRisk m2 (Fin b) = Fin b' /\ a' <= b'.
Proof.
  intros Heq Hle. unfold addProfitabilityRisk.
  rewrite !(@num_lt_eqv (profitMargin m1) (profitMargin m2) _ _ Heq
              ltac:(reflexivity)).
  destruct (profitMargin m2 <? Fin 0)%num;
    [| destruct (profitMargin m2 <? Fin 5)%num;
       [| destruct (profitMargin m2 <? Fin 10)%num]];
    do 2 eexists; (repeat split; try reflexivity); simpl; lra.
Qed.

Lemma addValuationRisk_mono (m1 m2 : Metrics) (a b : Q) :
  priceToEquity m1 =n= priceToEquity m2 -> a <= b ->
  exists a' b',
    addValuationRisk m1 (Fin a) = Fin a'
    /\ addValuationRisk m2 (Fin b) = Fin b' /\ a' <= b'.
Proof.
  intros Heq Hle. unfold addValuationRisk, num_gt.
  rewrite !(@num_lt_eqv _ _ (priceToEquity m1) (priceToEquity m2)
              ltac:(reflexivity) Heq).
  destruct (Fin 12 <? priceToEquity m2)%num;
    [| destruct (Fin 7 <? priceToEquity m2)%num];
    do 2 eexists; (repeat split; try reflexivity); simpl; lra.
Qed.

Lemma riskBand_mono (a b : Q) :
  a <= b -> (riskRank (riskBand a) <= riskRank (riskBand b))%nat.
Proof.
  intros Hle. unfold riskBand, num_ge, num_gt, num_lt, strict_eq.
  destruct (Qltb 65 a || Qeq_bool a 65) eqn:Ea.
  - assert (Hb : Qltb 65 b || Qeq_bool b 65 = true).
    { apply orb_true_iff in Ea. apply orb_true_iff.
      rewrite Qltb_lt, Qeq_bool_iff in Ea.
      destruct (Qeq_dec b 65) as [E | E].
      - right. apply Qeq_bool_iff. exact E.
      - left. apply Qltb_lt. lra. }
    rewrite Hb. simpl. lia.
  - destruct (Qltb 35 a || Qeq_bool a 35) eqn:Ea'.
    + assert (Hb : Qltb 35 b || Qeq_bool b 35 = true).
      { apply orb_true_iff in Ea'. apply orb_true_iff.
        rewrite Qltb_lt, Qeq_bool_iff in Ea'.
        destruct (Qeq_dec b 35) as [E | E].
        - right. apply Qeq_bool_iff. exact E.
        - left. apply Qltb_lt. lra. }
      rewrite Hb. destruct (Qltb 65 b || Qeq_bool b 65); simpl; lia.
    + simpl. lia.
Qed.

(** C8.  The risk level is monotonic non-decreasing in debtToEquity: of two
    companies with the same profit margin and the same price-to-equity,
    the one with the higher debtToEquity gets a band at least as severe
    (low < medium < high). *)
Theorem risk_monotone_in_debtToEquity (c1 c2 : Company) (m1 m2 : Metrics) :
  calculateMetrics c1 = Ret m1 ->
  calculateMetrics c2 = Ret m2 ->
  profitMargin m1 =n= profitMargin m2 ->
  priceToEquity m1 =n= priceToEquity m2 ->
  (debtToEquity m1 <? debtToEquity m2)%num = true ->
  exists r1 r2,
    calculateRisk c1 = Ret r1 /\ calculateRisk c2 = Ret r2
    /\ (riskRank r1 <= riskRank r2)%nat.
Proof.
  intros H1 H2 Hpm Hpe Hde. unfold calculateRisk. rewrite H1, H2.
  cbn [bind].
  destruct (addDebtRisk_mono m1 m2 0 Hde) as (a & b & -> & -> & Hab).
  destruct (addProfitabilityRisk_mono m1 m2 Hpm Hab) as (a' & b' & -> & -> & Hab').
  destruct (addValuationRisk_mono m1 m2 Hpe Hab') as (a'' & b'' & -> & -> & Hab'').
  do 2 eexists. split; [reflexivity |]. split; [reflexivity |].
  apply (riskBand_mono Hab'').
Qed.

Lemma risk_monotone_in_debtToEquity_witness :
  exists m1 m2,
    calculateMetrics lowDebt = Ret m1
    /\ calculateMetrics highDebt = Ret m2
    /\ profitMargin m1 =n= profitMargin m2
    /\ priceToEquity m1 =n= priceToEquity m2
    /\ (debtToEquity m1 <? debtToEquity m2)%num = true
    /\ calculateRisk lowDebt = Ret low
    /\ calculateRisk highDebt = Ret high
    /\ exists r1 r2,
        calculateRisk lowDebt = Ret r1 /\ calculateRisk highDebt = Ret r2
        /\ (riskRank r1 <= riskRank r2)%nat.
Proof.
  do 2 eexists.
  split; [reflexivity |]. split; [reflexivity |].
  split; [vm_compute; reflexivity |]. split; [vm_compute; reflexivity |].
  split; [vm_compute; reflexivity |]. split; [vm_compute; reflexivity |].
  split; [vm_compute; reflexivity |].
  apply (@risk_monotone_in_debtToEquity lowDebt highDebt _ _ eq_refl eq_refl);
    vm_compute; reflexivity.
Defined.

(* ================================================================== *)
(** ** Classification *)

Lemma calculateMetrics_nonempty (c : Company) :
  years c <> [] -> exists m, calculateMetrics c = Ret m.
Proof.
  intros Hne. destruct (latestYear_nonempty c Hne) as (y & Hy & _).
  unfold calculateMetrics. unfold latestYear in Hy. rewrite Hy.
  eexists. reflexivity.
Qed.

Lemma addGrowth_returns (c : Company) (score : num) :
  exists score', addGrowth c score = Ret score'.
Proof.
  unfold addGrowth.
  destruct (2 <=? length (years c))%nat eqn:E; [| eexists; reflexivity].
  apply Nat.leb_le in E.
  destruct (nth_error (years c) (length (years c) - 1)) as [y1 |] eqn:E1.
  2:{ apply nth_error_None in E1. lia. }
  destruct (nth_error (years c) (length (years c) - 2)) as [y2 |] eqn:E2.
  2:{ apply nth_error_None in E2. lia. }
  eexists. reflexivity.
Qed.

Lemma mapM_returns {A B : Type} (f : A -> outcome B) (l : list A) :
  Forall (fun a => exists b, f a = Ret b) l -> exists bs, mapM f l = Ret bs.
Proof.
  induction 1 as [| a l (b & Hb) _ (bs & Hbs)]; simpl.
  - eexists. reflexivity.
  - rewrite Hb. simpl. rewrite Hbs. simpl. eexists. reflexivity.
Qed.

Lemma calculateHealthScore_returns (c : Company) :
  years c <> [] -> exists h, calculateHealthScore c = Ret h.
Proof.
  intros Hne. destruct (calculateMetrics_nonempty c Hne) as (m & Hm).
  rewrite (calculateHealthScore_steps c Hm).
  destruct (addGrowth_returns c (addDebt m (addRoe m (addProfitMargin m (Fin 0)))))
    as (s & ->).
  eexists. reflexivity.
Qed.

Lemma calculateRisk_returns (c : Company) :
  years c <> [] -> exists k, calculateRisk c = Ret k.
Proof.
  intros Hne. destruct (calculateMetrics_nonempty c Hne) as (m & Hm).
  unfold calculateRisk. rewrite Hm. eexists. reflexivity.
Qed.

Lemma calculateUndervaluationScore_returns (companies : list Company) (c : Company) :
  years c <> [] -> Forall (fun c' => years c' <> []) companies ->
  exists u, calculateUndervaluationScore companies c = Ret u.
Proof.
  intros Hne Hall. destruct (calculateMetrics_nonempty c Hne) as (m & Hm).
  destruct (@mapM_returns _ _ calculateMetrics companies) as (ms & Hms).
  { eapply Forall_impl; [| exact Hall]. apply calculateMetrics_nonempty. }
  unfold calculateUndervaluationScore. rewrite Hm. cbn [bind].
  rewrite Hms. eexists. reflexivity.
Qed.

(** C7.  Classification follows the ordered rule list, first match wins: a
    company that meets rule 1 (undervaluation above 70 and health above 60)
    is 'undervalued' with confidence 0.9 even when it meets rule 3
    (momentum above 75 and health above 50) as well; and every company is
    given one of the five outcomes, the last being the neutral default with
    confidence 0.5. *)
Theorem classify_first_match_wins (companies : list Company) (c : Company) :
  years c <> [] -> Forall (fun c' => years c' <> []) companies ->
  exists h u k m r,
    calculateHealthScore c = Ret h
    /\ calculateUndervaluationScore companies c = Ret u
    /\ calculateRisk c = Ret k
    /\ calculateMetrics c = Ret m
    /\ classifyCompany companies c = Ret r
    /\ In r outcomes
    /\ (rule1 u h = true -> rule3 (calculateMomentumScore c) h = true ->
        r = {| category := undervalued; confidence := Fin 0.9 |})
    /\ (rule1 u h = true ->
        r = {| category := undervalued; confidence := Fin 0.9 |})
    /\ (rule1 u h = false -> rule2 h m = true ->
        r = {| category := overvalued; confidence := Fin 0.85 |})
    /\ (rule1 u h = false -> rule2 h m = false ->
        rule3 (calculateMomentumScore c) h = true ->
        r = {| category := growth; confidence := Fin 0.8 |})
    /\ (rule1 u h = false -> rule2 h m = false ->
        rule3 (calculateMomentumScore c) h = false -> rule4 k m h = true ->
        r = {| category := stable; confidence := Fin 0.85 |})
    /\ (rule1 u h = false -> rule2 h m = false ->
        rule3 (calculateMomentumScore c) h = false -> rule4 k m h = false ->
        r = {| category := neutral; confidence := Fin 0.5 |}).
Proof.
  intros Hne Hall.
  destruct (calculateHealthScore_returns c Hne) as (h & Hh).
  destruct (calculateUndervaluationScore_returns c Hne Hall) as (u & Hu).
  destruct (calculateRisk_returns c Hne) as (k & Hk).
  destruct (calculateMetrics_nonempty c Hne) as (m & Hm).
  exists h, u, k, m.
  unfold classifyCompany. rewrite Hh, Hu, Hk, Hm. cbn [bind].
  fold (rule1 u h). fold (rule2 h m). fold (rule3 (calculateMomentumScore c) h).
  fold (rule4 k m h).
  destruct (rule1 u h); [| destruct (rule2 h m);
    [| destruct (rule3 (calculateMomentumScore c) h); [| destruct (rule4 k m h)]]];
    eexists; (do 5 (split; [reflexivity |]));
    (split; [simpl; tauto |]); repeat split; intros; congruence.
Qed.

Lemma classify_first_match_wins_witness :
  years leader <> []
  /\ Forall (fun c' => years c' <> []) [leader; laggard]
  /\ exists h u,
      calculateHealthScore leader = Ret h
      /\ calculateUndervaluationScore [leader; laggard] leader = Ret u
      /\ rule1 u h = true
      /\ rule3 (calculateMomentumScore leader) h = true
      /\ classifyCompany [leader; laggard] leader
         = Ret {| category := undervalued; confidence := Fin 0.9 |}.
Proof.
  assert (H1 : years leader <> []) by discriminate.
  assert (H2 : Forall (fun c' => years c' <> []) [leader; laggard])
    by (repeat constructor; discriminate).
  split; [exact H1 |]. split; [exact H2 |].
  destruct (@classify_first_match_wins [leader; laggard] leader H1 H2)
    as (h & u & k & m & r & Hh & Hu & Hk & Hm & Hr & Hin & Hfirst & _).
  exists h, u. split; [exact Hh |]. split; [exact Hu |].
  assert (R1 : rule1 u h = true).
  { vm_compute in Hh, Hu. injection Hh as <-. injection Hu as <-.
    vm_compute. reflexivity. }
  assert (R3 : rule3 (calculateMomentumScore leader) h = true).
  { vm_compute in Hh. injection Hh as <-. vm_compute. reflexivity. }
  split; [exact R1 |]. split; [exact R3 |].
  rewrite Hr. f_equal. apply Hfirst; assumption.
Defined.

(* ================================================================== *)
(** ** Arithmetic respects [=n=] *)

#[global] Instance Qltb_Proper : Proper (Qeq ==> Qeq ==> eq) Qltb.
Proof.
  intros p p' Hp q q' Hq. unfold Qltb. rewrite Hp, Hq. reflexivity.
Qed.

#[global] Instance signed_inf_Proper : Proper (eq ==> Qeq ==> eq) signed_inf.
Proof.
  intros neg neg' <- p p' Hp. unfold signed_inf. rewrite Hp. reflexivity.
Qed.

#[global] Instance Fin_Proper : Proper (Qeq ==> num_eqv) Fin.
Proof. intros p q H. exact H. Qed.

#[global] Instance num_opp_Proper : Proper (num_eqv ==> num_eqv) num_opp.
Proof.
  intros [p | | |] [q | | |]; simpl; try contradiction; auto.
  intros H. rewrite H. reflexivity.
Qed.

#[global] Instance num_add_Proper :
  Proper (num_eqv ==> num_eqv ==> num_eqv) num_add.
Proof.
  intros [p | | |] [p' | | |] Hp [q | | |] [q' | | |] Hq; simpl in *;
    try contradiction; auto.
  rewrite Hp, Hq. reflexivity.
Qed.

#[global] Instance num_sub_Proper :
  Proper (num_eqv ==> num_eqv ==> num_eqv) num_sub.
Proof.
  intros a a' Ha b b' Hb. unfold num_sub. rewrite Ha, Hb. reflexivity.
Qed.

Lemma inf_or_nan_eqv (neg : bool) (p p' : Q) :
  p == p' ->
  (if Qeq_bool p 0 then NaN else signed_inf neg p)
  = (if Qeq_bool p' 0 then NaN else signed_inf neg p').
Proof.
  intros H. rewrite (Qeqb_comp p p' H 0 0 (Qeq_refl 0)).
  rewrite (@signed_inf_Proper neg neg eq_refl p p' H). reflexivity.
Qed.

#[global] Instance num_mul_Proper :
  Proper (num_eqv ==> num_eqv ==> num_eqv) num_mul.
Proof.
  intros [p | | |] [p' | | |] Hp [q | | |] [q' | | |] Hq; simpl in *;
    try contradiction; auto;
    try (rewrite (inf_or_nan_eqv _ Hp); reflexivity);
    try (rewrite (inf_or_nan_eqv _ Hq); reflexivity).
  rewrite Hp, Hq. reflexivity.
Qed.

#[global] Instance num_div_Proper :
  Proper (num_eqv ==> num_eqv ==> num_eqv) num_div.
Proof.
  intros [p | | |] [p' | | |] Hp [q | | |] [q' | | |] Hq; simpl in *;
    try contradiction; auto;
    try (rewrite (@signed_inf_Proper _ _ eq_refl _ _ Hq); reflexivity);
    try reflexivity.
  rewrite (Qeqb_comp q q' Hq 0 0 (Qeq_refl 0)).
  destruct (Qeq_bool q' 0).
  - rewrite (inf_or_nan_eqv _ Hp). reflexivity.
  - simpl. rewrite Hp, Hq. reflexivity.
Qed.

#[global] Instance num_lt_Proper : Proper (num_eqv ==> num_eqv ==> eq) num_lt.
Proof. intros a a' Ha b b' Hb. apply num_lt_eqv; assumption. Qed.

#[global] Instance strict_eq_Proper :
  Proper (num_eqv ==> num_eqv ==> eq) strict_eq.
Proof.
  intros [p | | |] [p' | | |] Hp [q | | |] [q' | | |] Hq; simpl in *;
    try contradiction; auto.
  rewrite Hp, Hq. reflexivity.
Qed.

#[global] Instance min2_Proper :
  Proper (num_eqv ==> num_eqv ==> num_eqv) Math.min2.
Proof.
  intros a a' Ha b b' Hb. unfold Math.min2.
  rewrite (@num_lt_eqv _ _ _ _ Hb Ha).
  destruct a, a', b, b'; simpl in Ha, Hb; try contradiction;
    try exact I; destruct (num_lt _ _); simpl; auto.
Qed.

#[global] Instance max2_Proper :
  Proper (num_eqv ==> num_eqv ==> num_eqv) Math.max2.
Proof.
  intros a a' Ha b b' Hb. unfold Math.max2.
  rewrite (@num_lt_eqv _ _ _ _ Ha Hb).
  destruct a, a', b, b'; simpl in Ha, Hb; try contradiction;
    try exact I; destruct (num_lt _ _); simpl; auto.
Qed.

#[global] Instance clamp_Proper :
  Proper (num_eqv ==> num_eqv ==> num_eqv ==> num_eqv) Utils.clamp.
Proof.
  intros v v' Hv lo lo' Hlo hi hi' Hhi.
  unfold Utils.clamp, Math.min, Math.max. cbn [fold_left].
  rewrite Hv, Hlo, Hhi. reflexivity.
Qed.

#[global] Instance normalize_Proper :
  Proper (num_eqv ==> num_eqv ==> num_eqv ==> num_eqv) normalize.
Proof.
  intros v v' Hv lo lo' Hlo hi hi' Hhi. unfold normalize.
  rewrite (@strict_eq_Proper _ _ Hhi _ _ Hlo).
  destruct (hi' === lo')%num; [reflexivity |].
  rewrite Hv, Hlo, Hhi. reflexivity.
Qed.

(* ================================================================== *)
(** ** Undervaluation score and the population *)

Lemma min2_right_comm (a x y : num) :
  Math.min2 (Math.min2 a x) y =n= Math.min2 (Math.min2 a y) x.
Proof.
  destruct a as [a | | |], x as [x | | |], y as [y | | |];
    cbn; try exact I; try reflexivity;
    repeat (qcases; cbn); try exact I; try reflexivity; lra.
Qed.

Lemma max2_right_comm (a x y : num) :
  Math.max2 (Math.max2 a x) y =n= Math.max2 (Math.max2 a y) x.
Proof.
  destruct a as [a | | |], x as [x | | |], y as [y | | |];
    cbn; try exact I; try reflexivity;
    repeat (qcases; cbn); try exact I; try reflexivity; lra.
Qed.

(** A fold with an operation that respects [=n=] and whose right operands
    commute gives the same number on a reordered list. *)
Section FoldPermutation.

Variable f : num -> num -> num.
Hypothesis f_Proper : Proper (num_eqv ==> num_eqv ==> num_eqv) f.
Hypothesis f_right_comm : forall a x y, f (f a x) y =n= f (f a y) x.

Lemma fold_left_eqv (l : list num) :
  forall a a', a =n= a' -> fold_left f l a =n= fold_left f l a'.
Proof.
  induction l as [| x l IH]; intros a a' Ha; simpl; [exact Ha |].
  apply IH. rewrite Ha. reflexivity.
Qed.

Lemma fold_left_Permutation (l l' : list num) :
  Permutation l l' ->
  forall a a', a =n= a' -> fold_left f l a =n= fold_left f l' a'.
Proof.
  induction 1 as [| x l l' _ IH | x y l | l l' l'' _ IH1 _ IH2];
    intros a a' Ha; simpl.
  - exact Ha.
  - apply IH. rewrite Ha. reflexivity.
  - apply fold_left_eqv. rewrite Ha. apply f_right_comm.
  - rewrite (IH1 a a' Ha). apply IH2. reflexivity.
Qed.

End FoldPermutation.

Lemma Math_min_Permutation (l l' : list num) :
  Permutation l l' -> Math.min l =n= Math.min l'.
Proof.
  intros H. unfold Math.min.
  apply (fold_left_Permutation min2_Proper min2_right_comm H). reflexivity.
Qed.

Lemma Math_max_Permutation (l l' : list num) :
  Permutation l l' -> Math.max l =n= Math.max l'.
Proof.
  intros H. unfold Math.max.
  apply (fold_left_Permutation max2_Proper max2_right_comm H). reflexivity.
Qed.

Lemma filter_Permutation {A : Type} (p : A -> bool) (l l' : list A) :
  Permutation l l' -> Permutation (filter p l) (filter p l').
Proof.
  induction 1 as [| x l l' _ IH | x y l | l l' l'' _ IH1 _ IH2]; simpl.
  - constructor.
  - destruct (p x); [constructor |]; exact IH.
  - destruct (p x), (p y); try reflexivity. constructor.
  - etransitivity; eassumption.
Qed.

(** [mapM] over a reordered list raises as well, or returns the reordered
    results. *)
Lemma mapM_Permutation {A B : Type} (f : A -> outcome B) (l l' : list A) :
  Permutation l l' ->
  match mapM f l, mapM f l' with
  | Ret bs, Ret bs' => Permutation bs bs'
  | TypeError, TypeError => True
  | _, _ => False
  end.
Proof.
  induction 1 as [| x l l' _ IH | x y l | l l' l'' _ IH1 _ IH2]; simpl.
  - constructor.
  - destruct (f x) as [b |]; simpl; [| exact I].
    destruct (mapM f l), (mapM f l'); simpl; try contradiction; auto.
  - destruct (f x) as [b |], (f y) as [b' |]; simpl; try exact I;
      destruct (mapM f l); simpl; try exact I. constructor.
  - destruct (mapM f l), (mapM f l'), (mapM f l''); try contradiction; auto.
    etransitivity; eassumption.
Qed.

(** C9.  The undervaluation score of a company does not depend on the
    order of the population (two reorderings of the same population give
    the same score, or both raise), and it does depend on the membership:
    the same company scores differently with and without a second company
    in the population. *)
Theorem undervaluation_score_population :
  (forall (c : Company) (pop1 pop2 : list Company),
      Permutation pop1 pop2 ->
      outcome_eqv (calculateUndervaluationScore pop1 c)
        (calculateUndervaluationScore pop2 c))
  /\ (exists u1 u2,
         calculateUndervaluationScore [leader; laggard] leader = Ret u1
         /\ calculateUndervaluationScore [leader] leader = Ret u2
         /\ In laggard [leader; laggard]
         /\ ~ In laggard [leader]
         /\ ~ u1 =n= u2).
Proof.
  split.
  - intros c pop1 pop2 Hperm. unfold calculateUndervaluationScore.
    destruct (calculateMetrics c) as [m |]; cbn [bind]; [| exact I].
    pose proof (mapM_Permutation calculateMetrics Hperm) as HM.
    destruct (mapM calculateMetrics pop1) as [ms |],
             (mapM calculateMetrics pop2) as [ms' |];
      cbn [bind]; try contradiction; [| exact I].
    cbn [outcome_eqv fold_left].
    assert (Hsel : forall sel : Metrics -> num,
               Permutation (filter Utils.isValidNumber (map sel ms))
                 (filter Utils.isValidNumber (map sel ms'))).
    { intros sel. apply filter_Permutation, Permutation_map. exact HM. }
    rewrite (Math_min_Permutation (Hsel priceToEquity)).
    rewrite (Math_max_Permutation (Hsel priceToEquity)).
    rewrite (Math_min_Permutation (Hsel profitMargin)).
    rewrite (Math_max_Permutation (Hsel profitMargin)).
    rewrite (Math_min_Permutation (Hsel debtToEquity)).
    rewrite (Math_max_Permutation (Hsel debtToEquity)).
    reflexivity.
  - do 2 eexists. split; [reflexivity |]. split; [reflexivity |].
    split; [simpl; tauto |]. split.
    + simpl. intros [H | []]. discriminate H.
    + vm_compute. discriminate.
Qed.

Lemma undervaluation_score_population_witness :
  Permutation [leader; laggard] [laggard; leader]
  /\ outcome_eqv (calculateUndervaluationScore [leader; laggard] leader)
       (Ret (Fin 100))
  /\ outcome_eqv (calculateUndervaluationScore [leader; laggard] leader)
       (calculateUndervaluationScore [laggard; leader] leader).
Proof.
  split; [apply perm_swap |]. split.
  - vm_compute. reflexivity.
  - apply (proj1 undervaluation_score_population). apply perm_swap.
Defined.

(* ================================================================== *)
(** ** Trend forecast: sums *)









(* ================================================================== *)
(** ** Trend forecast: the least-squares line *)






(* ================================================================== *)
(** ** Trend forecast: the code computes the least-squares line *)






Lemma num_div_Fin (a b : Q) : ~ b == 0 -> (Fin a / Fin b)%num = Fin (a / b).
Proof.
  intros Hb. apply Qeq_bool_false in Hb. simpl. rewrite Hb. reflexivity.
Qed.










(* ================================================================== *)
(** ** Further properties: the ranges of the scores *)

(** Case analysis on every test of a step, then the sum that is left. *)
Ltac step_bounds :=
  repeat match goal with
  | |- context [if ?b then _ else _] => destruct b
  end;
  eexists; (split; [reflexivity | cbn; split; lra]).

Lemma addProfitMargin_bounds (m : Metrics) (s : Q) :
  exists s', addProfitMargin m (Fin s) = Fin s' /\ s <= s' <= s + 20.
Proof. unfold addProfitMargin. step_bounds. Qed.

Lemma addRoe_bounds (m : Metrics) (s : Q) :
  exists s', addRoe m (Fin s) = Fin s' /\ s <= s' <= s + 20.
Proof. unfold addRoe. step_bounds. Qed.

Lemma addDebt_bounds (m : Metrics) (s : Q) :
  exists s', addDebt m (Fin s) = Fin s' /\ s <= s' <= s + 30.
Proof. unfold addDebt. step_bounds. Qed.

Lemma addGrowthOf_bounds (g : num) (s : Q) :
  exists s', addGrowthOf g (Fin s) = Fin s' /\ s <= s' <= s + 15.
Proof. unfold addGrowthOf. step_bounds. Qed.

Lemma addGrowth_bounds (c : Company) (s : Q) :
  exists s', addGrowth c (Fin s) = Ret (Fin s') /\ s <= s' <= s + 30.
Proof.
  destruct (addGrowth_returns c (Fin s)) as (r & Hr).
  unfold addGrowth in *.
  destruct (2 <=? length (years c))%nat.
  - destruct (nth_error (years c) (length (years c) - 1)) as [y1 |];
      [| discriminate Hr].
    destruct (nth_error (years c) (length (years c) - 2)) as [y2 |];
      [| discriminate Hr].
    cbv zeta.
    destruct (addGrowthOf_bounds
                (Utils.growthRate (revenue y2) (revenue y1)) s) as (s1 & -> & H1).
    destruct (addGrowthOf_bounds
                (Utils.growthRate (netProfit y2) (netProfit y1)) s1)
      as (s2 & -> & H2).
    exists s2. split; [reflexivity | lra].
  - exists s. split; [reflexivity | lra].
Qed.

(** A finite value between the bounds is left alone by [clamp]. *)
Lemma clamp_inside (x lo hi : Q) :
  lo <= x <= hi ->
  exists r, Utils.clamp (Fin x) (Fin lo) (Fin hi) = Fin r /\ r == x.
Proof.
  intros Hx. destruct (clamp_Fin x lo hi) as (r & Hr & Er).
  exists r. split; [exact Hr |]. rewrite Er.
  destruct (@Qclamp_spec x lo hi ltac:(lra)) as [[H E] | [[H E] | [H E]]];
    rewrite E; lra.
Qed.

Lemma clamp_range (x lo hi : Q) :
  lo <= hi ->
  exists r, Utils.clamp (Fin x) (Fin lo) (Fin hi) = Fin r /\ lo <= r <= hi.
Proof.
  intros Hlh. destruct (clamp_Fin x lo hi) as (r & Hr & Er).
  exists r. split; [exact Hr |]. rewrite Er.
  destruct (Qclamp_spec x Hlh) as [[H E] | [[H E] | [H E]]]; rewrite E; lra.
Qed.

(** The health score before the clamp: a finite number between 0 and
    100. *)
Lemma health_steps_bounds (c : Company) (m : Metrics) :
  exists t,
    addGrowth c (addDebt m (addRoe m (addProfitMargin m (Fin 0)))) = Ret (Fin t)
    /\ 0 <= t <= 100.
Proof.
  destruct (addProfitMargin_bounds m 0) as (s1 & -> & H1).
  destruct (addRoe_bounds m s1) as (s2 & -> & H2).
  destruct (addDebt_bounds m s2) as (s3 & -> & H3).
  destruct (addGrowth_bounds c s3) as (s4 & -> & H4).
  exists s4. split; [reflexivity | lra].
Qed.

(** X1.  For every company with at least one fiscal record, whatever the
    values of its records (NaN and infinities included), the health score
    is a finite number between 0 and 100, and the final clamp changes
    nothing: the score is the sum of the bucket points. *)
Theorem healthScore_range (c : Company) (m : Metrics) :
  calculateMetrics c = Ret m ->
  exists h t,
    calculateHealthScore c = Ret (Fin h)
    /\ addGrowth c (addDebt m (addRoe m (addProfitMargin m (Fin 0)))) = Ret (Fin t)
    /\ h == t
    /\ 0 <= h <= 100.
Proof.
  intros Hm. rewrite (calculateHealthScore_steps c Hm).
  destruct (health_steps_bounds c m) as (t & Ht & Hrange).
  rewrite Ht. cbn [bind].
  destruct (clamp_inside Hrange) as (h & Hh & Eh).
  exists h, t. rewrite Hh. repeat split; try reflexivity; try exact Eh; lra.
Qed.

Lemma healthScore_range_witness :
  exists m,
    calculateMetrics scenario1 = Ret m
    /\ exists h t,
        calculateHealthScore scenario1 = Ret (Fin h)
        /\ addGrowth scenario1
             (addDebt m (addRoe m (addProfitMargin m (Fin 0)))) = Ret (Fin t)
        /\ h == t
        /\ 0 <= h <= 100.
Proof.
  eexists. split; [reflexivity |].
  apply (healthScore_range scenario1 eq_refl).
Defined.

(** The health score of a company with a record, as a helper for the other
    functions. *)
Lemma calculateHealthScore_finite (c : Company) :
  years c <> [] ->
  exists h, calculateHealthScore c = Ret (Fin h) /\ 0 <= h <= 100.
Proof.
  intros Hne. destruct (calculateMetrics_nonempty c Hne) as (m & Hm).
  rewrite (calculateHealthScore_steps c Hm).
  destruct (health_steps_bounds c m) as (t & Ht & Hrange).
  rewrite Ht. cbn [bind].
  destruct (clamp_inside Hrange) as (h & Hh & Eh).
  exists h. rewrite Hh. split; [reflexivity | lra].
Qed.

(** X2.  The momentum score of every company, whatever its records, is a
    finite number between 0 and 100. *)
Theorem momentumScore_range (c : Company) :
  exists s, calculateMomentumScore c = Fin s /\ 0 <= s <= 100.
Proof.
  destruct (le_lt_dec 3 (length (years c))) as [Hn | Hn].
  - rewrite (calculateMomentumScore_composite c Hn).
    apply clamp_range. lra.
  - unfold calculateMomentumScore. apply Nat.ltb_lt in Hn. rewrite Hn.
    exists 50. split; [reflexivity | lra].
Qed.

(** X3.  The potential return of a company with at least one fiscal record
    is a finite number, never below the health score and never above
    100. *)
Theorem potentialReturn_range (c : Company) :
  years c <> [] ->
  exists h p,
    calculateHealthScore c = Ret (Fin h)
    /\ calculatePotentialReturn c = Ret (Fin p)
    /\ h <= p <= 100.
Proof.
  intros Hne. destruct (calculateMetrics_nonempty c Hne) as (m & Hm).
  destruct (calculateHealthScore_finite c Hne) as (h & Hh & Hrange).
  exists h. unfold calculatePotentialReturn. rewrite Hm, Hh. cbn [bind].
  cbv zeta.
  assert (H1 : exists p1,
             (if (priceToEquity m <? Fin 2)%num then (Fin h + Fin 20)%num
              else Fin h) = Fin p1 /\ h <= p1 <= h + 20) by step_bounds.
  destruct H1 as (p1 & -> & H1).
  assert (H2 : exists p2,
             (if (profitMargin m >? Fin 15)%num then (Fin p1 + Fin 15)%num
              else Fin p1) = Fin p2 /\ p1 <= p2 <= p1 + 15) by step_bounds.
  destruct H2 as (p2 & -> & H2).
  assert (H3 : exists p3,
             (if (debtToEquity m <? Fin 0.5)%num then (Fin p2 + Fin 10)%num
              else Fin p2) = Fin p3 /\ p2 <= p3 <= p2 + 10) by step_bounds.
  destruct H3 as (p3 & -> & H3).
  assert (H4 : exists p4,
             (if (2 <=? length (years c))%nat
              then
                match nth_error (years c) (length (years c) - 1),
                      nth_error (years c) (length (years c) - 2) with
                | Some recentYear, Some prevYear =>
                    Ret (if (Utils.growthRate (revenue prevYear) (revenue recentYear)
                             >? Fin 20)%num
                         then (Fin p3 + Fin 15)%num
                         else if (Utils.growthRate (revenue prevYear)
                                    (revenue recentYear) >? Fin 10)%num
                              then (Fin p3 + Fin 10)%num
                              else Fin p3)
                | _, _ => TypeError
                end
              else Ret (Fin p3)) = Ret (Fin p4) /\ p3 <= p4 <= p3 + 15).
  { destruct (2 <=? length (years c))%nat eqn:E.
    - apply Nat.leb_le in E.
      destruct (nth_error (years c) (length (years c) - 1)) as [y1 |] eqn:E1.
      2:{ apply nth_error_None in E1. lia. }
      destruct (nth_error (years c) (length (years c) - 2)) as [y2 |] eqn:E2.
      2:{ apply nth_error_None in E2. lia. }
      step_bounds.
    - exists p3. split; [reflexivity | lra]. }
  destruct H4 as (p4 & -> & H4). cbn [bind].
  destruct (clamp_Fin p4 0 100) as (p & Hp & Ep). rewrite Hp.
  exists p. split; [reflexivity |]. split; [reflexivity |]. rewrite Ep.
  destruct (@Qclamp_spec p4 0 100 ltac:(lra)) as [[H E] | [[H E] | [H E]]];
    rewrite E; lra.
Qed.

Lemma potentialReturn_range_witness :
  years leader <> []
  /\ exists h p,
      calculateHealthScore leader = Ret (Fin h)
      /\ calculatePotentialReturn leader = Ret (Fin p)
      /\ h <= p <= 100.
Proof.
  assert (H : years leader <> []) by discriminate.
  split; [exact H | exact (potentialReturn_range leader H)].
Defined.

(** X4.  A company without any fiscal record makes every function that
    reads the latest record raise (metrics, health score, risk, potential
    return, undervaluation score against any population, classification),
    while the momentum score is the neutral 50 and both predictions are
    null. *)
Theorem no_record_behaviour (c : Company) (companies : list Company) :
  years c = [] ->
  calculateMetrics c = TypeError
  /\ calculateHealthScore c = TypeError
  /\ calculateRisk c = TypeError
  /\ calculatePotentialReturn c = TypeError
  /\ calculateUndervaluationScore companies c = TypeError
  /\ classifyCompany companies c = TypeError
  /\ calculateMomentumScore c = Fin 50
  /\ predict2026Revenue c = None
  /\ predict2026Profit c = None.
Proof.
  intros Hy.
  assert (Hm : calculateMetrics c = TypeError)
    by (unfold calculateMetrics; rewrite Hy; reflexivity).
  assert (Hh : calculateHealthScore c = TypeError)
    by (unfold calculateHealthScore; rewrite Hm; reflexivity).
  repeat split; try assumption.
  - unfold calculateRisk. rewrite Hm. reflexivity.
  - unfold calculatePotentialReturn. rewrite Hm. reflexivity.
  - unfold calculateUndervaluationScore. rewrite Hm. reflexivity.
  - unfold classifyCompany. rewrite Hh. reflexivity.
  - unfold calculateMomentumScore. rewrite Hy. reflexivity.
  - unfold predict2026Revenue. rewrite Hy. reflexivity.
  - unfold predict2026Profit. rewrite Hy. reflexivity.
Qed.

Lemma no_record_behaviour_witness :
  years noRecords = []
  /\ calculateMetrics noRecords = TypeError
  /\ calculateHealthScore noRecords = TypeError
  /\ calculateRisk noRecords = TypeError
  /\ calculatePotentialReturn noRecords = TypeError
  /\ calculateUndervaluationScore [leader] noRecords = TypeError
  /\ classifyCompany [leader] noRecords = TypeError
  /\ calculateMomentumScore noRecords = Fin 50
  /\ predict2026Revenue noRecords = None
  /\ predict2026Profit noRecords = None.
Proof.
  split; [reflexivity | exact (@no_record_behaviour noRecords [leader] eq_refl)].
Defined.

(** More than that: one company without a record in the population makes
    the undervaluation score of every company raise. *)
Lemma mapM_raises {A B : Type} (f : A -> outcome B) (l : list A) (a : A) :
  In a l -> f a = TypeError -> mapM f l = TypeError.
Proof.
  induction l as [| x l IH]; intros Hin Ha; [contradiction |].
  destruct Hin as [-> | Hin]; simpl.
  - rewrite Ha. reflexivity.
  - destruct (f x); [| reflexivity]. simpl. rewrite (IH Hin Ha). reflexivity.
Qed.

(** X5.  The undervaluation score reads the latest record of every company
    of the population: if any company of the population has no record, the
    score of every company raises, and so does its classification. *)
Theorem undervaluation_raises_on_bad_population
  (companies : list Company) (bad c : Company) :
  In bad companies -> years bad = [] ->
  calculateUndervaluationScore companies c = TypeError
  /\ classifyCompany companies c = TypeError.
Proof.
  intros Hin Hbad.
  assert (Hm : calculateMetrics bad = TypeError)
    by (unfold calculateMetrics; rewrite Hbad; reflexivity).
  assert (Hu : calculateUndervaluationScore companies c = TypeError).
  { unfold calculateUndervaluationScore.
    destruct (calculateMetrics c); [| reflexivity]. cbn [bind].
    rewrite (mapM_raises calculateMetrics companies bad Hin Hm). reflexivity. }
  split; [exact Hu |].
  unfold classifyCompany. destruct (calculateHealthScore c); [| reflexivity].
  cbn [bind]. rewrite Hu. reflexivity.
Qed.

Lemma undervaluation_raises_on_bad_population_witness :
  In noRecords [leader; noRecords]
  /\ years noRecords = []
  /\ calculateUndervaluationScore [leader; noRecords] leader = TypeError
  /\ classifyCompany [leader; noRecords] leader = TypeError.
Proof.
  assert (H : In noRecords [leader; noRecords]) by (simpl; tauto).
  split; [exact H |]. split; [reflexivity |].
  exact (@undervaluation_raises_on_bad_population _ noRecords leader H eq_refl).
Defined.

(* ================================================================== *)
(** ** Further properties: the undervaluation score and its population *)

Lemma normalize_no_population (v : num) :
  normalize v (Math.min []) (Math.max []) = NaN.
Proof. destruct v; reflexivity. Qed.

(** X6.  With an empty population there is no range to normalise in:
    [Math.min()] is [+Infinity], [Math.max()] is [-Infinity], and the
    undervaluation score of every company with a record is [NaN] (the
    final clamp lets [NaN] through). *)
Theorem undervaluation_empty_population (c : Company) :
  years c <> [] ->
  calculateUndervaluationScore [] c = Ret NaN.
Proof.
  intros Hne. destruct (calculateMetrics_nonempty c Hne) as (m & Hm).
  unfold calculateUndervaluationScore. rewrite Hm. cbn [bind mapM map filter].
  cbn [fold_left]. rewrite !normalize_no_population. reflexivity.
Qed.

Lemma undervaluation_empty_population_witness :
  years leader <> [] /\ calculateUndervaluationScore [] leader = Ret NaN.
Proof.
  assert (H : years leader <> []) by discriminate.
  split; [exact H | exact (undervaluation_empty_population leader H)].
Defined.










(* ================================================================== *)
(** ** Further properties: the screens of the analyzer *)

Lemma filterM_In {A : Type} (p : A -> outcome bool) (l : list A) :
  forall l', filterM p l = Ret l' ->
  forall x, In x l' <-> (In x l /\ p x = Ret true).
Proof.
  induction l as [| a l IH]; intros l' H x; simpl in H.
  - injection H as <-. simpl. tauto.
  - destruct (p a) as [keep |] eqn:Ea; [| discriminate H]. cbn [bind] in H.
    destruct (filterM p l) as [rest |]; [| discriminate H]. cbn [bind] in H.
    injection H as <-. specialize (IH rest eq_refl x).
    destruct keep; simpl; rewrite IH; split.
    + intros [-> | [H1 H2]]; [split; [left; reflexivity | exact Ea] | tauto].
    + intros [[-> | H1] H2]; [left; reflexivity | tauto].
    + tauto.
    + intros [[-> | H1] H2]; [congruence | tauto].
Qed.

Lemma mapM_In {A B : Type} (f : A -> outcome B) (l : list A) :
  forall bs, mapM f l = Ret bs ->
  forall b, In b bs <-> exists a, In a l /\ f a = Ret b.
Proof.
  induction l as [| a l IH]; intros bs H b; simpl in H.
  - injection H as <-. simpl. split; [tauto | intros (a & [] & _)].
  - destruct (f a) as [b0 |] eqn:Ea; [| discriminate H]. cbn [bind] in H.
    destruct (mapM f l) as [bs0 |]; [| discriminate H]. cbn [bind] in H.
    injection H as <-. specialize (IH bs0 eq_refl b). simpl. rewrite IH. split.
    + intros [-> | (a' & Hin & Ha')].
      * exists a. split; [left; reflexivity | exact Ea].
      * exists a'. split; [right; exact Hin | exact Ha'].
    + intros (a' & [-> | Hin] & Ha').
      * left. congruence.
      * right. exists a'. split; assumption.
Qed.

Lemma annotate_Ret (c : Company) (e : Analyzed) :
  annotate c = Ret e ->
  a_company e = c
  /\ calculateMetrics c = Ret (a_metrics e)
  /\ calculateHealthScore c = Ret (a_healthScore e).
Proof.
  unfold annotate. intros H.
  destruct (calculateMetrics c) as [m |]; [| discriminate H]. cbn [bind] in H.
  destruct (calculateHealthScore c) as [h |]; [| discriminate H].
  cbn [bind] in H. injection H as <-. repeat split.
Qed.

(** A number below [x] is not above any [y >= x], and conversely. *)
Lemma num_lt_then_not_gt (a : num) (x y : Q) :
  (a <? Fin x)%num = true -> x <= y -> (a >? Fin y)%num = false.
Proof.
  destruct a as [q | | |]; cbn; try discriminate; try reflexivity.
  rewrite Qltb_lt, Qltb_ge. intros; lra.
Qed.

Lemma num_gt_then_not_lt (a : num) (x y : Q) :
  (a >? Fin x)%num = true -> y <= x -> (a <? Fin y)%num = false.
Proof.
  destruct a as [q | | |]; cbn; try discriminate; try reflexivity.
  rewrite Qltb_lt, Qltb_ge. intros; lra.
Qed.

(** What the filter of [findUndervalued] accepts. *)
Lemma undervaluedFilter_true (c : Company) :
  undervaluedFilter c = Ret true ->
  exists m h,
    calculateMetrics c = Ret m /\ calculateHealthScore c = Ret h
    /\ (h >? Fin 60)%num = true
    /\ (priceToEquity m <? Fin 3)%num = true
    /\ (profitMargin m >? Fin 5)%num = true
    /\ (debtToEquity m <? Fin 2)%num = true.
Proof.
  unfold undervaluedFilter. intros H.
  destruct (calculateMetrics c) as [m |]; [| discriminate H]. cbn [bind] in H.
  destruct (calculateHealthScore c) as [h |]; [| discriminate H].
  cbn [bind] in H. injection H as H. rewrite !andb_true_iff in H.
  exists m, h. tauto.
Qed.

Lemma overvaluedFilter_true (c : Company) :
  overvaluedFilter c = Ret true ->
  exists m h,
    calculateMetrics c = Ret m /\ calculateHealthScore c = Ret h
    /\ (h <? Fin 40)%num = true
    /\ ((priceToEquity m >? Fin 5)%num
        || (profitMargin m <? Fin 0)%num
        || (debtToEquity m >? Fin 3)%num) = true.
Proof.
  unfold overvaluedFilter. intros H.
  destruct (calculateMetrics c) as [m |]; [| discriminate H]. cbn [bind] in H.
  destruct (calculateHealthScore c) as [h |]; [| discriminate H].
  cbn [bind] in H. injection H as H. rewrite andb_true_iff in H.
  exists m, h. tauto.
Qed.

(** X8.  Every company that [findUndervalued] returns is a company of the
    population, carries its own metrics and health score, and has risk
    level 'low': a price-to-equity below 3, a margin above 5 and a
    debt-to-equity below 2 leave at most 25 risk points. *)
Theorem findUndervalued_low_risk (companies : list Company) (l : list Analyzed) :
  findUndervalued companies = Ret l ->
  forall e, In e l ->
    In (a_company e) companies
    /\ calculateMetrics (a_company e) = Ret (a_metrics e)
    /\ calculateHealthScore (a_company e) = Ret (a_healthScore e)
    /\ (a_healthScore e >? Fin 60)%num = true
    /\ calculateRisk (a_company e) = Ret low.
Proof.
  unfold findUndervalued. intros H e He.
  destruct (filterM undervaluedFilter companies) as [found |] eqn:Ef;
    [| discriminate H].
  cbn [bind] in H.
  apply (mapM_In annotate found H) in He. destruct He as (c & Hc & Hann).
  apply (filterM_In undervaluedFilter companies Ef) in Hc.
  destruct Hc as [Hin Htrue].
  destruct (annotate_Ret c Hann) as (Ec & Hm & Hh). rewrite Ec.
  destruct (undervaluedFilter_true c Htrue)
    as (m & h & Hm' & Hh' & H60 & Hpe & Hpm & Hde).
  rewrite Hm in Hm'. injection Hm' as <-. rewrite Hh in Hh'. injection Hh' as <-.
  repeat split; try assumption.
  unfold calculateRisk. rewrite Hm. cbn [bind]. cbv zeta.
  unfold addDebtRisk, addProfitabilityRisk, addValuationRisk.
  rewrite (num_lt_then_not_gt (debtToEquity (a_metrics e)) (y := 3) Hde)
    by lra.
  rewrite (num_lt_then_not_gt (debtToEquity (a_metrics e)) (y := 2) Hde)
    by lra.
  rewrite (num_gt_then_not_lt (profitMargin (a_metrics e)) (y := 0) Hpm)
    by lra.
  rewrite (num_gt_then_not_lt (profitMargin (a_metrics e)) (y := 5) Hpm)
    by lra.
  rewrite (num_lt_then_not_gt (priceToEquity (a_metrics e)) (y := 12) Hpe)
    by lra.
  rewrite (num_lt_then_not_gt (priceToEquity (a_metrics e)) (y := 7) Hpe)
    by lra.
  destruct (debtToEquity (a_metrics e) >? Fin 1)%num;
    destruct (profitMargin (a_metrics e) <? Fin 10)%num; reflexivity.
Qed.

Lemma findUndervalued_low_risk_witness :
  exists l e,
    findUndervalued [leader; laggard] = Ret l
    /\ In e l
    /\ a_company e = leader
    /\ calculateRisk (a_company e) = Ret low.
Proof.
  destruct (findUndervalued [leader; laggard]) as [l |] eqn:E;
    [| vm_compute in E; discriminate E].
  destruct l as [| e l]; [vm_compute in E; discriminate E |].
  exists (e :: l), e.
  assert (Hin : In e (e :: l)) by (left; reflexivity).
  split; [reflexivity |]. split; [exact Hin |]. split.
  - vm_compute in E. injection E as <- _. reflexivity.
  - apply (findUndervalued_low_risk [leader; laggard] E e Hin).
Defined.

(** X9.  No company is returned by both [findUndervalued] and
    [findOvervalued]: the first needs a health score above 60, the second
    one below 40. *)
Theorem undervalued_overvalued_disjoint
  (companies : list Company) (lu lo : list Analyzed) :
  findUndervalued companies = Ret lu ->
  findOvervalued companies = Ret lo ->
  forall eu eo, In eu lu -> In eo lo -> a_company eu <> a_company eo.
Proof.
  unfold findUndervalued, findOvervalued. intros Hu Ho eu eo Heu Heo Heq.
  destruct (filterM undervaluedFilter companies) as [fu |] eqn:Efu;
    [| discriminate Hu].
  destruct (filterM overvaluedFilter companies) as [fo |] eqn:Efo;
    [| discriminate Ho].
  cbn [bind] in Hu, Ho.
  apply (mapM_In annotate fu Hu) in Heu. destruct Heu as (cu & Hcu & Hau).
  apply (mapM_In annotate fo Ho) in Heo. destruct Heo as (co & Hco & Hao).
  destruct (annotate_Ret cu Hau) as (Eu & _). destruct (annotate_Ret co Hao) as (Eo & _).
  assert (E : co = cu) by congruence.
  apply (filterM_In undervaluedFilter companies Efu) in Hcu.
  apply (filterM_In overvaluedFilter companies Efo) in Hco.
  rewrite E in Hco.
  destruct (undervaluedFilter_true cu (proj2 Hcu)) as (m & h & _ & Hh & H60 & _).
  destruct (overvaluedFilter_true cu (proj2 Hco)) as (m' & h' & _ & Hh' & H40 & _).
  rewrite Hh in Hh'. injection Hh' as <-.
  rewrite (num_gt_then_not_lt h (y := 40) H60) in H40 by lra. discriminate H40.
Qed.

Lemma undervalued_overvalued_disjoint_witness :
  exists lu lo eu eo,
    findUndervalued [leader; laggard] = Ret lu
    /\ findOvervalued [leader; laggard] = Ret lo
    /\ In eu lu /\ In eo lo
    /\ a_company eu <> a_company eo.
Proof.
  destruct (findUndervalued [leader; laggard]) as [lu |] eqn:Eu;
    [| vm_compute in Eu; discriminate Eu].
  destruct (findOvervalued [leader; laggard]) as [lo |] eqn:Eo;
    [| vm_compute in Eo; discriminate Eo].
  destruct lu as [| eu lu]; [vm_compute in Eu; discriminate Eu |].
  destruct lo as [| eo lo]; [vm_compute in Eo; discriminate Eo |].
  exists (eu :: lu), (eo :: lo), eu, eo.
  assert (Hu : In eu (eu :: lu)) by (left; reflexivity).
  assert (Ho : In eo (eo :: lo)) by (left; reflexivity).
  repeat split; try assumption.
  exact (@undervalued_overvalued_disjoint [leader; laggard] _ _ Eu Eo eu eo Hu Ho).
Defined.

Lemma mapM_In_image {A B : Type} (f : A -> outcome B) (l : list A) :
  forall bs, mapM f l = Ret bs ->
  forall a, In a l -> exists b, f a = Ret b /\ In b bs.
Proof.
  induction l as [| x l IH]; intros bs H a Hin; [contradiction |].
  simpl in H.
  destruct (f x) as [b0 |] eqn:Ex; [| discriminate H]. cbn [bind] in H.
  destruct (mapM f l) as [bs0 |]; [| discriminate H]. cbn [bind] in H.
  injection H as <-. destruct Hin as [-> | Hin].
  - exists b0. split; [exact Ex | left; reflexivity].
  - destruct (IH bs0 eq_refl a Hin) as (b & Hb & Hbin).
    exists b. split; [exact Hb | right; exact Hbin].
Qed.

(** X10.  The classifier and the overvalued screen agree: a company that
    [classifyCompany] calls 'overvalued' passes the filter of
    [findOvervalued], so when it belongs to the analyzer's population
    [findOvervalued] returns it. *)
Theorem classified_overvalued_is_found
  (population companies : list Company) (c : Company) (r : Classification) :
  classifyCompany population c = Ret r ->
  category r = overvalued ->
  overvaluedFilter c = Ret true
  /\ forall l,
      In c companies -> findOvervalued companies = Ret l ->
      exists e, In e l /\ a_company e = c.
Proof.
  intros Hclass Hcat.
  assert (Hfilter : overvaluedFilter c = Ret true).
  { unfold classifyCompany in Hclass. unfold overvaluedFilter.
    destruct (calculateHealthScore c) as [h |]; [| discriminate Hclass].
    cbn [bind] in Hclass.
    destruct (calculateUndervaluationScore population c) as [u |];
      [| discriminate Hclass].
    cbn [bind] in Hclass.
    destruct (calculateRisk c) as [k |]; [| discriminate Hclass].
    cbn [bind] in Hclass.
    destruct (calculateMetrics c) as [m |]; [| discriminate Hclass].
    cbn [bind] in *.
    destruct ((u >? Fin 70)%num && (h >? Fin 60)%num);
      [injection Hclass as <-; discriminate Hcat |].
    destruct (h <? Fin 40)%num eqn:E40; cbn [andb] in Hclass.
    - destruct ((debtToEquity m >? Fin 3)%num || (profitMargin m <? Fin 0)%num)
        eqn:Eor.
      + apply orb_true_iff in Eor. f_equal. cbn [andb].
        destruct Eor as [-> | ->]; rewrite ?orb_true_r; reflexivity.
      + destruct ((calculateMomentumScore c >? Fin 75)%num && (h >? Fin 50)%num);
          [injection Hclass as <-; discriminate Hcat |].
        destruct (isLow k && (m_marketCap m >? Fin 50000)%num
                  && (h >? Fin 50)%num);
          injection Hclass as <-; discriminate Hcat.
    - destruct ((calculateMomentumScore c >? Fin 75)%num && (h >? Fin 50)%num);
        [injection Hclass as <-; discriminate Hcat |].
      destruct (isLow k && (m_marketCap m >? Fin 50000)%num
                && (h >? Fin 50)%num);
        injection Hclass as <-; discriminate Hcat. }
  split; [exact Hfilter |].
  intros l Hin Hfound. unfold findOvervalued in Hfound.
  destruct (filterM overvaluedFilter companies) as [found |] eqn:Ef;
    [| discriminate Hfound].
  cbn [bind] in Hfound.
  assert (Hc : In c found).
  { apply (filterM_In overvaluedFilter companies Ef). split; assumption. }
  destruct (mapM_In_image annotate found Hfound c Hc) as (e & He & Hel).
  exists e. split; [exact Hel | apply (annotate_Ret c He)].
Qed.

Lemma classified_overvalued_is_found_witness :
  exists r l,
    classifyCompany [leader; laggard] laggard = Ret r
    /\ category r = overvalued
    /\ findOvervalued [leader; laggard] = Ret l
    /\ overvaluedFilter laggard = Ret true
    /\ exists e, In e l /\ a_company e = laggard.
Proof.
  destruct (classifyCompany [leader; laggard] laggard) as [r |] eqn:Ec;
    [| vm_compute in Ec; discriminate Ec].
  destruct (findOvervalued [leader; laggard]) as [l |] eqn:Ef;
    [| vm_compute in Ef; discriminate Ef].
  assert (Hcat : category r = overvalued).
  { vm_compute in Ec. injection Ec as <-. reflexivity. }
  exists r, l. split; [reflexivity |]. split; [exact Hcat |].
  split; [reflexivity |].
  destruct (@classified_overvalued_is_found [leader; laggard] [leader; laggard]
              laggard r Ec Hcat) as [Hfilter Hfound].
  split; [exact Hfilter |].
  apply Hfound; [simpl; tauto | exact Ef].
Defined.

(* ================================================================== *)
(** ** Further properties: growth leaders *)

Lemma growthLeaderFilter_foldPairs (c : Company) :
  growthLeaderFilter c
  = if (length (years c) <? 3)%nat then false
    else foldPairs leaderStep (years c) true.
Proof.
  unfold growthLeaderFilter. destruct (length (years c) <? 3)%nat; [reflexivity |].
  apply forFrom1_foldPairs.
  intros i cur prev s _ Hcur Hprev. rewrite Hcur, Hprev. reflexivity.
Qed.

Lemma foldPairs_leaderStep_false (l : list FiscalYear) :
  foldPairs leaderStep l false = false.
Proof.
  induction l as [| a l IH]; [reflexivity |].
  destruct l as [| b t]; [reflexivity |].
  rewrite foldPairs_cons2. exact IH.
Qed.

Lemma num_le_false_gt (a b : num) :
  isFinite a = true -> isFinite b = true ->
  num_le a b = false -> (a >? b)%num = true.
Proof.
  destruct a as [x | | |], b as [y | | |]; try discriminate.
  intros _ _. unfold num_le. cbn. rewrite orb_false_iff.
  rewrite Qltb_ge, Qeq_bool_false, Qltb_lt. intros [H1 H2].
  destruct (Qlt_le_dec y x) as [H | H]; [exact H |]. exfalso. apply H2. lra.
Qed.

(** When the loop ends with [consistentGrowth] still true, revenue and
    profit have risen on every pair of consecutive periods. *)
Lemma leaders_rise_every_period (l : list FiscalYear) :
  Forall (fun y => isFinite (revenue y) = true /\ isFinite (netProfit y) = true) l ->
  foldPairs leaderStep l true = true ->
  increases (map revenue l) = (length l - 1)%nat
  /\ increases (map netProfit l) = (length l - 1)%nat.
Proof.
  induction 1 as [| a l Ha Hl IH]; [split; reflexivity |].
  destruct l as [| b t]; [split; reflexivity |].
  rewrite foldPairs_cons2. intros Hfold.
  destruct (leaderStep b a true) eqn:Estep.
  2:{ rewrite foldPairs_leaderStep_false in Hfold. discriminate Hfold. }
  destruct (IH Hfold) as [IHr IHp].
  unfold leaderStep in Estep.
  destruct (num_le (revenue b) (revenue a) || num_le (netProfit b) (netProfit a))
    eqn:Eor; [discriminate Estep |].
  apply orb_false_iff in Eor. destruct Eor as [Er Ep].
  inversion Hl as [| b' t' [Hbr Hbp] _]; subst. destruct Ha as [Har Hap].
  apply (@num_le_false_gt _ _ Hbr Har) in Er.
  apply (@num_le_false_gt _ _ Hbp Hap) in Ep.
  change (map revenue (a :: b :: t)) with (revenue a :: revenue b :: map revenue t).
  change (map netProfit (a :: b :: t))
    with (netProfit a :: netProfit b :: map netProfit t).
  rewrite !increases_cons2, Er, Ep.
  change (revenue b :: map revenue t) with (map revenue (b :: t)).
  change (netProfit b :: map netProfit t) with (map netProfit (b :: t)).
  rewrite IHr, IHp. cbn [length]. split; lia.
Qed.

Lemma fraction_all (k : nat) : (0 < k)%nat -> fraction k k == 1.
Proof.
  intros Hk. unfold fraction. pose proof (inject_nat_pos Hk). field. lra.
Qed.

(** X11.  Every growth leader (the filter of [findGrowthLeaders]) with
    finite revenue and profit has momentum score 100, so it meets the
    momentum condition of the classifier's 'growth' rule. *)
Theorem growth_leader_momentum (c : Company) :
  Forall (fun y => isFinite (revenue y) = true /\ isFinite (netProfit y) = true)
    (years c) ->
  growthLeaderFilter c = true ->
  (3 <= length (years c))%nat
  /\ calculateMomentumScore c =n= Fin 100
  /\ (calculateMomentumScore c >? Fin 75)%num = true.
Proof.
  intros Hfin Hleader. rewrite growthLeaderFilter_foldPairs in Hleader.
  destruct (length (years c) <? 3)%nat eqn:En; [discriminate Hleader |].
  apply Nat.ltb_ge in En.
  destruct (leaders_rise_every_period Hfin Hleader) as [Hr Hp].
  assert (Hc : 1 <= composite c).
  { unfold composite, revenueMomentum, profitMomentum. rewrite Hr, Hp.
    rewrite fraction_all by lia.
    assert (Ha : 0 <= acceleration c).
    { unfold acceleration. cbv zeta.
      destruct (2 <=? length (growthRates (map revenue (years c))))%nat;
        [apply fraction_nonneg | lra]. }
    lra. }
  destruct (calculateMomentumScore_clamp c En) as (s & Hs & Es).
  destruct (Qclamp_percent (composite_nonneg c)) as [Hge _].
  rewrite (Hge Hc) in Es.
  split; [exact En |]. rewrite Hs. split.
  - exact Es.
  - cbn. apply Qltb_lt. lra.
Qed.

Lemma growth_leader_momentum_witness :
  Forall (fun y => isFinite (revenue y) = true /\ isFinite (netProfit y) = true)
    (years growing3)
  /\ growthLeaderFilter growing3 = true
  /\ calculateMomentumScore growing3 =n= Fin 100.
Proof.
  assert (H1 : Forall (fun y => isFinite (revenue y) = true
                                /\ isFinite (netProfit y) = true)
                 (years growing3))
    by (repeat constructor).
  assert (H2 : growthLeaderFilter growing3 = true) by reflexivity.
  split; [exact H1 |]. split; [exact H2 |].
  apply (growth_leader_momentum growing3 H1 H2).
Defined.

(* ================================================================== *)
(** ** Further properties: insights *)

(** A returned classification, read back as the first rule that holds. *)
Lemma classifyCompany_inv (companies : list Company) (c : Company) (r : Classification) :
  classifyCompany companies c = Ret r ->
  exists h u k m,
    calculateHealthScore c = Ret h
    /\ calculateUndervaluationScore companies c = Ret u
    /\ calculateRisk c = Ret k
    /\ calculateMetrics c = Ret m
    /\ r = (if rule1 u h then {| category := undervalued; confidence := Fin 0.9 |}
            else if rule2 h m then {| category := overvalued; confidence := Fin 0.85 |}
            else if rule3 (calculateMomentumScore c) h
                 then {| category := growth; confidence := Fin 0.8 |}
            else if rule4 k m h then {| category := stable; confidence := Fin 0.85 |}
            else {| category := neutral; confidence := Fin 0.5 |}).
Proof.
  unfold classifyCompany. intros H.
  destruct (calculateHealthScore c) as [h |]; [| discriminate H]. cbn [bind] in H.
  destruct (calculateUndervaluationScore companies c) as [u |]; [| discriminate H].
  cbn [bind] in H.
  destruct (calculateRisk c) as [k |]; [| discriminate H]. cbn [bind] in H.
  destruct (calculateMetrics c) as [m |]; [| discriminate H]. cbn [bind] in H.
  exists h, u, k, m. repeat (split; [reflexivity |]).
  fold (rule1 u h) in H. fold (rule2 h m) in H.
  fold (rule3 (calculateMomentumScore c) h) in H. fold (rule4 k m h) in H.
  destruct (rule1 u h); [congruence |].
  destruct (rule2 h m); [congruence |].
  destruct (rule3 (calculateMomentumScore c) h); [congruence |].
  destruct (rule4 k m h); congruence.
Qed.

(** One category of insights: at most one insight is appended. *)
Lemma insightStep_spec (b1 b2 : bool) (x y : Insight) (l : list Insight) :
  (length (insightStep b1 b2 x y l) <= S (length l))%nat
  /\ incl l (insightStep b1 b2 x y l)
  /\ (b1 = true -> In x (insightStep b1 b2 x y l))
  /\ (b1 = false -> b2 = true -> In y (insightStep b1 b2 x y l)).
Proof.
  unfold insightStep.
  destruct b1, b2; cbn; rewrite ?length_app; cbn;
    (split; [lia |]); (split; [try apply incl_appl; apply incl_refl |]);
    split; intros; try discriminate; apply in_or_app; right; left; reflexivity.
Qed.

Lemma Ret_inj {A : Type} (a b : A) : Ret a = Ret b -> a = b.
Proof. intros H. injection H as H. exact H. Qed.

(** [generateInsights], its five categories written with [insightStep]. *)
Lemma generateInsights_steps (companies : list Company) (c : Company) :
  generateInsights companies c
  = (h <- calculateHealthScore c ;;
     u <- calculateUndervaluationScore companies c ;;
     m <- calculateMetrics c ;;
     r <- classifyCompany companies c ;;
     Ret {| i_healthScore := h;
            i_undervalScore := u;
            i_momentum := calculateMomentumScore c;
            i_classification := r;
            i_predicted2026Revenue := predict2026Revenue c;
            i_predicted2026Profit := predict2026Profit c;
            insights :=
              insightStep (profitMargin m >? Fin 20)%num (profitMargin m <? Fin 0)%num
                {| type := positive; text := "Excellent profit margins" |}
                {| type := negative; text := "Company is currently unprofitable" |}
                (insightStep (debtToEquity m >? Fin 3)%num
                   (debtToEquity m <? Fin 0.5)%num
                   {| type := negative; text := "High debt levels pose risk" |}
                   {| type := positive;
                      text := "Low debt provides financial flexibility" |}
                   (insightStep (calculateMomentumScore c >? Fin 75)%num
                      (calculateMomentumScore c <? Fin 30)%num
                      {| type := positive;
                         text := "Strong positive momentum in growth" |}
                      {| type := negative;
                         text := "Declining momentum - growth slowing" |}
                      (insightStep (u >? Fin 70)%num (priceToEquity m >? Fin 8)%num
                         {| type := positive;
                            text := "Potentially undervalued with good upside" |}
                         {| type := warning;
                            text := "High valuation - may be overpriced" |}
                         (insightStep (h >? Fin 70)%num (h <? Fin 40)%num
                            {| type := positive;
                               text := "Strong financial health with solid fundamentals" |}
                            {| type := negative;
                               text := "Weak financial health - caution advised" |}
                            [])))) |}).
Proof. reflexivity. Qed.

(** X12.  [generateInsights] reports at most five insights, one per
    category at most, and its verdict is backed by an insight: an
    'undervalued' classification comes with the insight "Potentially
    undervalued with good upside", a 'growth' classification with "Strong
    positive momentum in growth", and an 'overvalued' classification with
    "Weak financial health - caution advised". *)
Theorem insights_back_the_classification
  (companies : list Company) (c : Company) (g : MLInsights) :
  generateInsights companies c = Ret g ->
  (length (insights g) <= 5)%nat
  /\ classifyCompany companies c = Ret (i_classification g)
  /\ (category (i_classification g) = undervalued ->
      In {| type := positive; text := "Potentially undervalued with good upside" |}
        (insights g))
  /\ (category (i_classification g) = growth ->
      In {| type := positive; text := "Strong positive momentum in growth" |}
        (insights g))
  /\ (category (i_classification g) = overvalued ->
      In {| type := negative; text := "Weak financial health - caution advised" |}
        (insights g)).
Proof.
  rewrite generateInsights_steps. intros H.
  destruct (calculateHealthScore c) as [h |] eqn:Hh; [| discriminate H].
  cbn [bind] in H.
  destruct (calculateUndervaluationScore companies c) as [u |] eqn:Hu;
    [| discriminate H].
  cbn [bind] in H.
  destruct (calculateMetrics c) as [m |] eqn:Hm; [| discriminate H].
  cbn [bind] in H.
  destruct (classifyCompany companies c) as [r |] eqn:Hr; [| discriminate H].
  cbn [bind] in H. apply Ret_inj in H. subst g.
  cbn [insights i_classification].
  destruct (classifyCompany_inv companies c Hr)
    as (h' & u' & k & m' & Hh' & Hu' & Hk & Hm' & Er).
  rewrite Hh in Hh'. apply Ret_inj in Hh'. subst h'.
  rewrite Hu in Hu'. apply Ret_inj in Hu'. subst u'.
  rewrite Hm in Hm'. apply Ret_inj in Hm'. subst m'.
  set (mo := calculateMomentumScore c) in *.
  match goal with
  | |- context [insightStep (h >? Fin 70)%num (h <? Fin 40)%num ?x ?y []] =>
      destruct (insightStep_spec (h >? Fin 70)%num (h <? Fin 40)%num x y [])
        as (L1 & I1 & _ & N1);
      set (l1 := insightStep (h >? Fin 70)%num (h <? Fin 40)%num x y []) in *
  end.
  match goal with
  | |- context [insightStep ?b1 ?b2 ?x ?y l1] =>
      destruct (insightStep_spec b1 b2 x y l1) as (L2 & I2 & P2 & _);
      set (l2 := insightStep b1 b2 x y l1) in *
  end.
  match goal with
  | |- context [insightStep ?b1 ?b2 ?x ?y l2] =>
      destruct (insightStep_spec b1 b2 x y l2) as (L3 & I3 & P3 & _);
      set (l3 := insightStep b1 b2 x y l2) in *
  end.
  match goal with
  | |- context [insightStep ?b1 ?b2 ?x ?y l3] =>
      destruct (insightStep_spec b1 b2 x y l3) as (L4 & I4 & _ & _);
      set (l4 := insightStep b1 b2 x y l3) in *
  end.
  match goal with
  | |- context [insightStep ?b1 ?b2 ?x ?y l4] =>
      destruct (insightStep_spec b1 b2 x y l4) as (L5 & I5 & _ & _);
      set (l5 := insightStep b1 b2 x y l4) in *
  end.
  cbn [length] in L1.
  split; [lia |]. split; [reflexivity |].
  unfold rule1, rule2, rule3 in Er.
  split; [| split].
  - intros Hcat. apply I5, I4, I3, P2.
    destruct (u >? Fin 70)%num; [reflexivity |]. cbn [andb] in Er.
    rewrite Er in Hcat.
    destruct ((h <? Fin 40)%num
              && ((debtToEquity m >? Fin 3)%num || (profitMargin m <? Fin 0)%num));
      [discriminate Hcat |].
    destruct ((mo >? Fin 75)%num && (h >? Fin 50)%num); [discriminate Hcat |].
    destruct (rule4 k m h); discriminate Hcat.
  - intros Hcat. apply I5, I4, P3.
    destruct (mo >? Fin 75)%num; [reflexivity |]. cbn [andb] in Er.
    rewrite Er in Hcat.
    destruct ((u >? Fin 70)%num && (h >? Fin 60)%num); [discriminate Hcat |].
    destruct ((h <? Fin 40)%num
              && ((debtToEquity m >? Fin 3)%num || (profitMargin m <? Fin 0)%num));
      [discriminate Hcat |].
    destruct (rule4 k m h); discriminate Hcat.
  - intros Hcat. apply I5, I4, I3, I2.
    assert (H40 : (h <? Fin 40)%num = true).
    { destruct (h <? Fin 40)%num; [reflexivity |]. cbn [andb] in Er.
      rewrite Er in Hcat.
      destruct ((u >? Fin 70)%num && (h >? Fin 60)%num); [discriminate Hcat |].
      destruct ((mo >? Fin 75)%num && (h >? Fin 50)%num); [discriminate Hcat |].
      destruct (rule4 k m h); discriminate Hcat. }
    apply N1; [| exact H40].
    apply (num_lt_then_not_gt h (y := 70) H40). lra.
Qed.

Lemma insights_back_the_classification_witness :
  exists g,
    generateInsights [leader; laggard] leader = Ret g
    /\ category (i_classification g) = undervalued
    /\ (length (insights g) <= 5)%nat
    /\ In {| type := positive; text := "Potentially undervalued with good upside" |}
         (insights g).
Proof.
  destruct (generateInsights [leader; laggard] leader) as [g |] eqn:E;
    [| vm_compute in E; discriminate E].
  exists g. split; [reflexivity |].
  assert (Hcat : category (i_classification g) = undervalued).
  { vm_compute in E. injection E as <-. reflexivity. }
  split; [exact Hcat |].
  destruct (@insights_back_the_classification [leader; laggard] leader g E)
    as (Hlen & _ & Hu & _).
  split; [exact Hlen | exact (Hu Hcat)].
Defined.

(* ================================================================== *)
(** ** Further properties: the risk level in every metric *)

Lemma addDebtRisk_mono_weak (m1 m2 : Metrics) :
  debtToEquity m1 =n= debtToEquity m2
  \/ (debtToEquity m1 <? debtToEquity m2)%num = true ->
  exists a b,
    addDebtRisk m1 (Fin 0) = Fin a /\ addDebtRisk m2 (Fin 0) = Fin b /\ a <= b.
Proof.
  intros [Heq | Hlt]; [| exact (addDebtRisk_mono m1 m2 0 Hlt)].
  unfold addDebtRisk, num_gt.
  rewrite !(@num_lt_eqv _ _ (debtToEquity m1) (debtToEquity m2)
              ltac:(reflexivity) Heq).
  destruct (Fin 3 <? debtToEquity m2)%num;
    [| destruct (Fin 2 <? debtToEquity m2)%num;
       [| destruct (Fin 1 <? debtToEquity m2)%num]];
    do 2 eexists; (repeat split; try reflexivity); simpl; lra.
Qed.

(** A lower profit margin never lowers the profitability part of the risk
    score. *)
Lemma addProfitabilityRisk_antitone (m1 m2 : Metrics) (a b : Q) :
  (profitMargin m2 <? profitMargin m1)%num = true -> a <= b ->
  exists a' b',
    addProfitabilityRisk m1 (Fin a) = Fin a'
    /\ addProfitabilityRisk m2 (Fin b) = Fin b' /\ a' <= b'.
Proof.
  intros Hlt Hle. unfold addProfitabilityRisk.
  destruct (profitMargin m1 <? Fin 0)%num eqn:E0.
  { rewrite (num_lt_trans _ _ _ Hlt E0). do 2 eexists.
    repeat split; try reflexivity. simpl. lra. }
  destruct (profitMargin m1 <? Fin 5)%num eqn:E5.
  { rewrite (num_lt_trans _ _ _ Hlt E5).
    destruct (profitMargin m2 <? Fin 0)%num; do 2 eexists;
      (repeat split; try reflexivity); simpl; lra. }
  destruct (profitMargin m1 <? Fin 10)%num eqn:E10.
  { rewrite (num_lt_trans _ _ _ Hlt E10).
    destruct (profitMargin m2 <? Fin 0)%num;
      destruct (profitMargin m2 <? Fin 5)%num; do 2 eexists;
      (repeat split; try reflexivity); simpl; lra. }
  destruct (profitMargin m2 <? Fin 0)%num;
    destruct (profitMargin m2 <? Fin 5)%num;
    destruct (profitMargin m2 <? Fin 10)%num; do 2 eexists;
    (repeat split; try reflexivity); simpl; lra.
Qed.

(** A higher price-to-equity never lowers the valuation part of the risk
    score. *)
Lemma addValuationRisk_mono_strict (m1 m2 : Metrics) (a b : Q) :
  (priceToEquity m1 <? priceToEquity m2)%num = true -> a <= b ->
  exists a' b',
    addValuationRisk m1 (Fin a) = Fin a'
    /\ addValuationRisk m2 (Fin b) = Fin b' /\ a' <= b'.
Proof.
  intros Hlt Hle. unfold addValuationRisk, num_gt.
  destruct (Fin 12 <? priceToEquity m1)%num eqn:E12.
  { rewrite (num_lt_trans _ _ _ E12 Hlt). do 2 eexists.
    repeat split; try reflexivity. simpl. lra. }
  destruct (Fin 7 <? priceToEquity m1)%num eqn:E7.
  { rewrite (num_lt_trans _ _ _ E7 Hlt).
    destruct (Fin 12 <? priceToEquity m2)%num; do 2 eexists;
      (repeat split; try reflexivity); simpl; lra. }
  destruct (Fin 12 <? priceToEquity m2)%num;
    destruct (Fin 7 <? priceToEquity m2)%num; do 2 eexists;
    (repeat split; try reflexivity); simpl; lra.
Qed.

(** X13.  The risk level is monotone in each of its three inputs at once:
    of two companies, the one whose debt-to-equity is not lower, whose
    profit margin is not higher and whose price-to-equity is not lower
    gets a band at least as severe (low < medium < high). *)
Theorem risk_monotone_in_every_metric (c1 c2 : Company) (m1 m2 : Metrics) :
  calculateMetrics c1 = Ret m1 ->
  calculateMetrics c2 = Ret m2 ->
  debtToEquity m1 =n= debtToEquity m2
  \/ (debtToEquity m1 <? debtToEquity m2)%num = true ->
  profitMargin m1 =n= profitMargin m2
  \/ (profitMargin m2 <? profitMargin m1)%num = true ->
  priceToEquity m1 =n= priceToEquity m2
  \/ (priceToEquity m1 <? priceToEquity m2)%num = true ->
  exists r1 r2,
    calculateRisk c1 = Ret r1 /\ calculateRisk c2 = Ret r2
    /\ (riskRank r1 <= riskRank r2)%nat.
Proof.
  intros H1 H2 Hde Hpm Hpe. unfold calculateRisk. rewrite H1, H2. cbn [bind].
  destruct (addDebtRisk_mono_weak m1 m2 Hde) as (a & b & -> & -> & Hab).
  assert (Hp : exists a' b',
             addProfitabilityRisk m1 (Fin a) = Fin a'
             /\ addProfitabilityRisk m2 (Fin b) = Fin b' /\ a' <= b').
  { destruct Hpm as [Heq | Hlt].
    - exact (addProfitabilityRisk_mono m1 m2 Heq Hab).
    - exact (addProfitabilityRisk_antitone m1 m2 Hlt Hab). }
  destruct Hp as (a' & b' & -> & -> & Hab').
  assert (Hv : exists a'' b'',
             addValuationRisk m1 (Fin a') = Fin a''
             /\ addValuationRisk m2 (Fin b') = Fin b'' /\ a'' <= b'').
  { destruct Hpe as [Heq | Hlt].
    - exact (addValuationRisk_mono m1 m2 Heq Hab').
    - exact (addValuationRisk_mono_strict m1 m2 Hlt Hab'). }
  destruct Hv as (a'' & b'' & -> & -> & Hab'').
  do 2 eexists. split; [reflexivity |]. split; [reflexivity |].
  apply (riskBand_mono Hab'').
Qed.

Lemma risk_monotone_in_every_metric_witness :
  exists m1 m2 r1 r2,
    calculateMetrics leader = Ret m1
    /\ calculateMetrics laggard = Ret m2
    /\ (debtToEquity m1 <? debtToEquity m2)%num = true
    /\ (profitMargin m2 <? profitMargin m1)%num = true
    /\ (priceToEquity m1 <? priceToEquity m2)%num = true
    /\ calculateRisk leader = Ret r1 /\ calculateRisk laggard = Ret r2
    /\ (riskRank r1 <= riskRank r2)%nat.
Proof.
  destruct (calculateMetrics leader) as [m1 |] eqn:E1;
    [| vm_compute in E1; discriminate E1].
  destruct (calculateMetrics laggard) as [m2 |] eqn:E2;
    [| vm_compute in E2; discriminate E2].
  assert (Hde : (debtToEquity m1 <? debtToEquity m2)%num = true).
  { vm_compute in E1, E2. apply Ret_inj in E1. apply Ret_inj in E2.
    subst m1 m2. reflexivity. }
  assert (Hpm : (profitMargin m2 <? profitMargin m1)%num = true).
  { vm_compute in E1, E2. apply Ret_inj in E1. apply Ret_inj in E2.
    subst m1 m2. reflexivity. }
  assert (Hpe : (priceToEquity m1 <? priceToEquity m2)%num = true).
  { vm_compute in E1, E2. apply Ret_inj in E1. apply Ret_inj in E2.
    subst m1 m2. reflexivity. }
  destruct (@risk_monotone_in_every_metric leader laggard m1 m2 E1 E2
              (or_intror Hde) (or_intror Hpm) (or_intror Hpe))
    as (r1 & r2 & Hr1 & Hr2 & Hrank).
  exists m1, m2, r1, r2. repeat split; assumption.
Defined.

(* ================================================================== *)
(** ** Further properties: [Utils.unique] and [Utils.average] *)










(* ================================================================== *)
(** ** Further properties: the sector ranking *)

Lemma insertSorted_Permutation {A : Type} (cmp : A -> A -> num) (x : A) (l : list A) :
  Permutation (insertSorted cmp x l) (x :: l).
Proof.
  induction l as [| y l IH]; cbn [insertSorted]; [reflexivity |].
  destruct (num_gt (cmp x y) (Fin 0)); [| reflexivity].
  rewrite IH. apply perm_swap.
Qed.

Lemma arraySort_Permutation {A : Type} (cmp : A -> A -> num) (l : list A) :
  Permutation (arraySort cmp l) l.
Proof.
  induction l as [| x l IH]; cbn [arraySort fold_right]; [reflexivity |].
  fold (arraySort cmp l).
  rewrite insertSorted_Permutation. constructor. exact IH.
Qed.

(** Sorting by a finite key, greatest first. *)
Section SortByKey.

Variable A : Type.
Variable key : A -> num.

Let cmp (a b : A) : num := (key b - key a)%num.
Let above (a b : A) : Prop := toQ (key b) <= toQ (key a).




End SortByKey.






(* ================================================================== *)
(** ** Further properties: the forecast continues an exact trend *)







(* ================================================================== *)
(** ** Further properties: [normalize] and [growthRate] *)



(** X19.  [growthRate] is 0 when the old value is zero or NaN; on a finite
    positive old value it is [(new - old) / old * 100] and is positive
    exactly when the value rose; on a negative old value the sign is
    reversed: the rate is positive exactly when the value fell. *)
Theorem growthRate_sign :
  (forall (newVal : num) (z : Q), z == 0 -> Utils.growthRate (Fin z) newVal = Fin 0)
  /\ (forall newVal : num, Utils.growthRate NaN newVal = Fin 0)
  /\ (forall o n : Q,
        ~ o == 0 ->
        exists g,
          Utils.growthRate (Fin o) (Fin n) = Fin g
          /\ g == (n - o) / o * 100
          /\ (0 < o -> (0 < g <-> o < n))
          /\ (o < 0 -> (0 < g <-> n < o))).
Proof.
  split; [| split].
  - intros newVal z Hz. unfold Utils.growthRate, falsy.
    apply Qeq_bool_iff in Hz. rewrite Hz. reflexivity.
  - reflexivity.
  - intros o n Ho. unfold Utils.growthRate, falsy, strict_eq.
    assert (E : Qeq_bool o 0 = false) by (apply Qeq_bool_false; exact Ho).
    rewrite E. cbn [orb num_sub num_add num_opp].
    rewrite num_div_Fin by exact Ho. cbn [num_mul].
    eexists. split; [reflexivity |]. split; [unfold Qminus; reflexivity |].
    assert (Hg : (n + - o) / o * 100 == (n - o) * 100 / o) by (field; exact Ho).
    split; intros Hsign; rewrite Hg; split; intros H.
    + destruct (Qlt_le_dec o n) as [H1 | H1]; [exact H1 |]. exfalso.
      assert (Hle : (n - o) * 100 / o <= 0).
      { apply Qle_shift_div_r; lra. }
      lra.
    + apply Qlt_shift_div_l; lra.
    + destruct (Qlt_le_dec n o) as [H1 | H1]; [exact H1 |]. exfalso.
      assert (Hle : (n - o) * 100 / o <= 0).
      { setoid_replace ((n - o) * 100 / o) with ((o - n) * 100 / (- o))
          by (field; exact Ho).
        apply Qle_shift_div_r; lra. }
      lra.
    + setoid_replace ((n - o) * 100 / o) with ((o - n) * 100 / (- o))
        by (field; exact Ho).
      apply Qlt_shift_div_l; lra.
Qed.

Lemma growthRate_sign_witness :
  ~ (-100) == 0
  /\ exists g,
      Utils.growthRate (Fin (-100)) (Fin (-50)) = Fin g
      /\ g == -50
      /\ ((-100) < 0 -> (0 < g <-> (-50) < (-100))).
Proof.
  assert (H : ~ (-100) == 0) by discriminate.
  split; [exact H |].
  destruct (proj2 (proj2 growthRate_sign) (-100) (-50) H)
    as (g & Hg & Eg & _ & Hneg).
  exists g. split; [exact Hg |]. split; [| exact Hneg].
  rewrite Eg. reflexivity.
Defined.

(* ================================================================== *)
(** ** Further properties: stable companies *)

Lemma stableFilter_true (c : Company) :
  stableFilter c = Ret true ->
  (3 <= length (years c))%nat
  /\ exists m h,
      calculateMetrics c = Ret m /\ calculateHealthScore c = Ret h
      /\ (m_marketCap m >? Fin 50000)%num = true
      /\ (debtToEquity m <? Fin 1)%num = true
      /\ (h >? Fin 50)%num = true
      /\ forallb (fun y => (netProfit y >? Fin 0)%num) (years c) = true.
Proof.
  unfold stableFilter. intros H.
  destruct (length (years c) <? 3)%nat eqn:E; [discriminate H |].
  apply Nat.ltb_ge in E. split; [exact E |].
  destruct (calculateMetrics c) as [m |]; [| discriminate H]. cbn [bind] in H.
  destruct (calculateHealthScore c) as [h |]; [| discriminate H].
  cbn [bind] in H. apply Ret_inj in H. rewrite !andb_true_iff in H.
  exists m, h. tauto.
Qed.

Lemma addProfitabilityRisk_bounds (m : Metrics) (s : Q) :
  exists s', addProfitabilityRisk m (Fin s) = Fin s' /\ s <= s' <= s + 40.
Proof. unfold addProfitabilityRisk. step_bounds. Qed.

Lemma addValuationRisk_bounds (m : Metrics) (s : Q) :
  exists s', addValuationRisk m (Fin s) = Fin s' /\ s <= s' <= s + 20.
Proof. unfold addValuationRisk. step_bounds. Qed.

Lemma riskBand_below_65 (t : Q) : t < 65 -> riskBand t <> high.
Proof.
  intros Ht. unfold riskBand, num_ge, num_gt, num_lt, strict_eq.
  assert (E1 : Qltb 65 t = false) by (apply Qltb_ge; lra).
  assert (E2 : Qeq_bool t 65 = false) by (apply Qeq_bool_false; lra).
  rewrite E1, E2. cbn [orb].
  destruct (Qltb 35 t || Qeq_bool t 35); discriminate.
Qed.

(** X20.  Every company that [findStableCompanies] returns is a company of
    the population with at least 3 periods and a positive profit in each,
    its risk level is never 'high' (a debt-to-equity below 1 adds no
    leverage points, and the two other parts add at most 60), and it does
    not pass the filter of [findOvervalued]. *)
Theorem findStableCompanies_never_high_risk
  (companies : list Company) (l : list Analyzed) :
  findStableCompanies companies = Ret l ->
  forall e, In e l ->
    In (a_company e) companies
    /\ (3 <= length (years (a_company e)))%nat
    /\ (forall y, In y (years (a_company e)) -> (netProfit y >? Fin 0)%num = true)
    /\ (exists k, calculateRisk (a_company e) = Ret k /\ k <> high)
    /\ overvaluedFilter (a_company e) = Ret false.
Proof.
  unfold findStableCompanies. intros H e He.
  destruct (filterM stableFilter companies) as [found |] eqn:Ef;
    [| discriminate H].
  cbn [bind] in H.
  apply (mapM_In annotate found H) in He. destruct He as (c & Hc & Hann).
  apply (filterM_In stableFilter companies Ef) in Hc. destruct Hc as [Hin Htrue].
  destruct (annotate_Ret c Hann) as (Ec & _). rewrite Ec.
  destruct (stableFilter_true c Htrue)
    as (Hn & m & h & Hm & Hh & _ & Hde & H50 & Hprofit).
  split; [exact Hin |]. split; [exact Hn |]. split; [| split].
  - intros y Hy. rewrite forallb_forall in Hprofit. apply Hprofit. exact Hy.
  - unfold calculateRisk. rewrite Hm. cbn [bind]. cbv zeta.
    assert (Hdebt : addDebtRisk m (Fin 0) = Fin 0).
    { unfold addDebtRisk.
      rewrite (num_lt_then_not_gt (debtToEquity m) (y := 3) Hde) by lra.
      rewrite (num_lt_then_not_gt (debtToEquity m) (y := 2) Hde) by lra.
      rewrite (num_lt_then_not_gt (debtToEquity m) (y := 1) Hde) by lra.
      reflexivity. }
    rewrite Hdebt.
    destruct (addProfitabilityRisk_bounds m 0) as (s1 & -> & H1).
    destruct (addValuationRisk_bounds m s1) as (s2 & -> & H2).
    eexists. split; [reflexivity |].
    apply (@riskBand_below_65 s2). lra.
  - unfold overvaluedFilter. rewrite Hm, Hh. cbn [bind].
    rewrite (num_gt_then_not_lt h (y := 40) H50) by lra. reflexivity.
Qed.

Lemma findStableCompanies_never_high_risk_witness :
  exists l e,
    findStableCompanies [blueChip; laggard] = Ret l
    /\ In e l
    /\ a_company e = blueChip
    /\ (exists k, calculateRisk (a_company e) = Ret k /\ k <> high).
Proof.
  destruct (findStableCompanies [blueChip; laggard]) as [l |] eqn:E;
    [| vm_compute in E; discriminate E].
  destruct l as [| e l]; [vm_compute in E; discriminate E |].
  exists (e :: l), e.
  assert (Hin : In e (e :: l)) by (left; reflexivity).
  split; [reflexivity |]. split; [exact Hin |]. split.
  - vm_compute in E. apply Ret_inj in E. injection E as <- _. reflexivity.
  - apply (findStableCompanies_never_high_risk [blueChip; laggard] E e Hin).
Defined.

(* ================================================================== *)
(** ** Further properties: [Utils.sortBy] and the top companies *)

(** Sorting with a comparator that decides an order [above]: the result is
    sorted for it. *)
Section SortGeneric.

Variable A : Type.
Variable cmp : A -> A -> num.
Variable above : A -> A -> Prop.
Variable dom : A -> Prop.

Hypothesis cmp_after :
  forall x y, dom x -> dom y -> num_gt (cmp x y) (Fin 0) = true -> above y x.
Hypothesis cmp_before :
  forall x y, dom x -> dom y -> num_gt (cmp x y) (Fin 0) = false -> above x y.

Lemma insertSorted_Sorted_gen (x : A) (l : list A) :
  dom x -> Forall dom l -> Sorted above l -> Sorted above (insertSorted cmp x l).
Proof.
  intros Hx Hl Hs. induction l as [| y l IH]; cbn [insertSorted].
  - repeat constructor.
  - inversion Hl as [| y' l' Hy Hl']; subst.
    inversion Hs as [| y' l' Hs' Hhd]; subst.
    destruct (num_gt (cmp x y) (Fin 0)) eqn:E.
    + constructor; [apply IH; assumption |].
      destruct l as [| z l]; cbn [insertSorted].
      * constructor. apply cmp_after; assumption.
      * destruct (num_gt (cmp x z) (Fin 0)).
        -- inversion Hhd; subst. constructor. assumption.
        -- constructor. apply cmp_after; assumption.
    + constructor; [exact Hs |]. constructor. apply cmp_before; assumption.
Qed.

Lemma arraySort_Sorted_gen (l : list A) :
  Forall dom l -> Sorted above (arraySort cmp l).
Proof.
  induction 1 as [| x l Hx Hl IH]; cbn [arraySort fold_right]; [constructor |].
  fold (arraySort cmp l).
  apply insertSorted_Sorted_gen; [exact Hx | | exact IH].
  eapply Permutation_Forall; [| exact Hl].
  symmetry. apply arraySort_Permutation.
Qed.

End SortGeneric.

Lemma orZero_finite (v : option num) :
  (forall n, v = Some n -> isFinite n = true) ->
  exists q, Utils.orZero v = Fin q.
Proof.
  intros H. destruct v as [n |]; [| eexists; reflexivity].
  specialize (H n eq_refl). destruct n as [q | | |]; try discriminate H.
  unfold Utils.orZero, falsy. destruct (Qeq_bool q 0); eexists; reflexivity.
Qed.

(** X21.  [Utils.sortBy] on objects whose property is a finite number or
    absent returns the same objects, ordered by [a[prop] || 0]: greatest
    first when [desc] is true, smallest first otherwise. *)
Theorem sortBy_sorted (A : Type) (arr : list A) (prop : A -> option num) :
  Forall (fun a => forall n, prop a = Some n -> isFinite n = true) arr ->
  Permutation (Utils.sortBy arr prop true) arr
  /\ Permutation (Utils.sortBy arr prop false) arr
  /\ Sorted (fun a b => toQ (Utils.orZero (prop b)) <= toQ (Utils.orZero (prop a)))
       (Utils.sortBy arr prop true)
  /\ Sorted (fun a b => toQ (Utils.orZero (prop a)) <= toQ (Utils.orZero (prop b)))
       (Utils.sortBy arr prop false).
Proof.
  intros Hfin. unfold Utils.sortBy.
  split; [apply arraySort_Permutation |].
  split; [apply arraySort_Permutation |].
  split.
  - apply (@arraySort_Sorted_gen A _ _
             (fun a => forall n, prop a = Some n -> isFinite n = true));
      [| | exact Hfin]; intros x y Hx Hy; cbv zeta;
      destruct (orZero_finite Hx) as (p & ->);
      destruct (orZero_finite Hy) as (q & ->); cbn;
      [rewrite Qltb_lt | rewrite Qltb_ge]; intros; lra.
  - apply (@arraySort_Sorted_gen A _ _
             (fun a => forall n, prop a = Some n -> isFinite n = true));
      [| | exact Hfin]; intros x y Hx Hy; cbv zeta;
      destruct (orZero_finite Hx) as (p & ->);
      destruct (orZero_finite Hy) as (q & ->); cbn;
      [rewrite Qltb_lt | rewrite Qltb_ge]; intros; lra.
Qed.

Lemma sortBy_sorted_witness :
  Forall (fun a : Q => forall n, Some (Fin a) = Some n -> isFinite n = true)
    [1; 5; 3]
  /\ Utils.sortBy [1; 5; 3] (fun a => Some (Fin a)) true = [5; 3; 1]
  /\ Sorted (fun a b : Q =>
               toQ (Utils.orZero (Some (Fin b))) <= toQ (Utils.orZero (Some (Fin a))))
       (Utils.sortBy [1; 5; 3] (fun a => Some (Fin a)) true).
Proof.
  assert (H : Forall (fun a : Q => forall n, Some (Fin a) = Some n
                                             -> isFinite n = true) [1; 5; 3]).
  { repeat constructor; intros n E; injection E as <-; reflexivity. }
  split; [exact H |]. split; [reflexivity |].
  apply (@sortBy_sorted Q [1; 5; 3] (fun a => Some (Fin a)) H).
Defined.

Lemma arraySort_no_exchange {A : Type} (cmp : A -> A -> num) (l : list A) :
  (forall x y, num_gt (cmp x y) (Fin 0) = false) -> arraySort cmp l = l.
Proof.
  intros Hcmp. induction l as [| x l IH]; [reflexivity |].
  cbn [arraySort fold_right]. fold (arraySort cmp l). rewrite IH.
  destruct l as [| y l]; [reflexivity |].
  cbn [insertSorted]. rewrite Hcmp. reflexivity.
Qed.

(** X22.  [getTopByMarketCap] does not rank by market capitalisation: the
    property name ['latest.marketCap'] matches no property of the objects,
    every key reads as 0, the stable sort exchanges nothing, and the
    result is the first [limit] companies in the order of the population
    (so a company with a larger market cap can come after a smaller
    one, or be cut off). *)
Theorem getTopByMarketCap_keeps_population_order
  (companies : list Company) (limit : nat) :
  DataLoader.getTopByMarketCap companies limit
  = firstn limit (DataLoader.getLatestData companies)
  /\ map DataLoader.l_company (DataLoader.getTopByMarketCap companies limit)
     = firstn limit companies.
Proof.
  unfold DataLoader.getTopByMarketCap. cbv zeta. unfold Utils.sortBy.
  rewrite arraySort_no_exchange by (intros x y; reflexivity).
  split; [reflexivity |].
  unfold DataLoader.getLatestData. rewrite <- firstn_map, map_map. cbn.
  rewrite map_id. reflexivity.
Qed.

Lemma getTopByMarketCap_keeps_population_order_witness :
  map DataLoader.l_company (DataLoader.getTopByMarketCap [leader; laggard] 1)
  = [leader]
  /\ map latestMarketCap (DataLoader.getLatestData [leader; laggard])
     = [100; 1000].
Proof.
  split; [| reflexivity].
  exact (proj2 (getTopByMarketCap_keeps_population_order [leader; laggard] 1)).
Defined.

(* ================================================================== *)
(** ** Further properties: when the momentum score is 0 and when 100 *)




(* ================================================================== *)
(** ** Further properties: the growth metrics of the data loader *)

Lemma foldPairs_trends (l : list FiscalYear) :
  forall acc : list num * list num,
    foldPairs
      (fun cur prev (trends : list num * list num) =>
         (fst trends ++ [Utils.growthRate (revenue prev) (revenue cur)],
          snd trends ++ [Utils.growthRate (netProfit prev) (netProfit cur)]))
      l acc
    = (fst acc ++ growthRates (map revenue l),
       snd acc ++ growthRates (map netProfit l)).
Proof.
  induction l as [| a l IH]; intros [rg pg];
    [cbn; now rewrite !app_nil_r |].
  destruct l as [| b t]; [cbn; now rewrite !app_nil_r |].
  rewrite foldPairs_cons2, IH. cbn [fst snd].
  change (map revenue (a :: b :: t)) with (revenue a :: revenue b :: map revenue t).
  change (map netProfit (a :: b :: t))
    with (netProfit a :: netProfit b :: map netProfit t).
  rewrite !growthRates_cons2, <- !app_assoc. reflexivity.
Qed.

Lemma growthOf_trends (c : Company) :
  DataLoader.growthOf c
  = if (length (years c) <? 2)%nat then None
    else
      Some {| DataLoader.avgRevenueGrowth :=
                Utils.average (growthRates (map revenue (years c)));
              DataLoader.avgProfitGrowth :=
                Utils.average (growthRates (map netProfit (years c)));
              DataLoader.revenueGrowthTrend := growthRates (map revenue (years c));
              DataLoader.profitGrowthTrend := growthRates (map netProfit (years c));
              DataLoader.consistentGrowth :=
                forallb (fun g => (g >? Fin 0)%num)
                  (growthRates (map revenue (years c)))
                && forallb (fun g => (g >? Fin 0)%num)
                     (growthRates (map netProfit (years c))) |}.
Proof.
  unfold DataLoader.growthOf. cbv zeta.
  destruct (length (years c) <? 2)%nat; [reflexivity |].
  rewrite (@forFrom1_foldPairs _ _
             (fun cur prev (trends : list num * list num) =>
                (fst trends ++ [Utils.growthRate (revenue prev) (revenue cur)],
                 snd trends
                   ++ [Utils.growthRate (netProfit prev) (netProfit cur)]))).
  2:{ intros i cur prev s _ Hcur Hprev. rewrite Hcur, Hprev. reflexivity. }
  rewrite foldPairs_trends. reflexivity.
Qed.

Lemma growth_positive_iff (o n : Q) :
  0 < o -> (0 < (n + - o) / o * 100 <-> o < n).
Proof.
  intros Ho.
  assert (Hg : (n + - o) / o * 100 == (n - o) * 100 / o) by (field; lra).
  rewrite Hg. split; intros H.
  - destruct (Qlt_le_dec o n) as [H1 | H1]; [exact H1 |]. exfalso.
    assert (Hle : (n - o) * 100 / o <= 0) by (apply Qle_shift_div_r; lra).
    lra.
  - apply Qlt_shift_div_l; lra.
Qed.

(** On a positive old value the growth rate is positive exactly when the
    new value is not [<=] the old one. *)
Lemma growthRate_positive (o n : Q) :
  0 < o ->
  (Utils.growthRate (Fin o) (Fin n) >? Fin 0)%num = negb (num_le (Fin n) (Fin o)).
Proof.
  intros Ho. unfold Utils.growthRate, falsy, strict_eq, num_le.
  assert (E : Qeq_bool o 0 = false) by (apply Qeq_bool_false; lra).
  rewrite E. cbn [orb num_sub num_add num_opp].
  rewrite num_div_Fin by lra. cbn [num_mul num_gt num_lt strict_eq].
  pose proof (growth_positive_iff n Ho) as Hiff.
  destruct (Qltb 0 ((n + - o) / o * 100)) eqn:E1;
    [apply Qltb_lt in E1 | apply Qltb_ge in E1];
    destruct (Qltb n o) eqn:E2;
    [apply Qltb_lt in E2 | apply Qltb_ge in E2 | apply Qltb_lt in E2
     | apply Qltb_ge in E2];
    destruct (Qeq_bool n o) eqn:E3;
    [apply Qeq_bool_iff in E3 | apply Qeq_bool_false in E3
     | apply Qeq_bool_iff in E3 | apply Qeq_bool_false in E3
     | apply Qeq_bool_iff in E3 | apply Qeq_bool_false in E3
     | apply Qeq_bool_iff in E3 | apply Qeq_bool_false in E3];
    cbn; try reflexivity; exfalso.
  - apply Hiff in E1. lra.
  - apply Hiff in E1. lra.
  - apply Hiff in E1. lra.
  - assert (H : o < n).
    { destruct (Qlt_le_dec o n) as [H | H]; [exact H |]. exfalso. apply E3. lra. }
    apply Hiff in H. lra.
Qed.

Lemma consistentGrowth_is_leaderLoop (l : list FiscalYear) :
  Forall (fun y => exists r p,
              revenue y = Fin r /\ netProfit y = Fin p /\ 0 < r /\ 0 < p) l ->
  forallb (fun g => (g >? Fin 0)%num) (growthRates (map revenue l))
  && forallb (fun g => (g >? Fin 0)%num) (growthRates (map netProfit l))
  = foldPairs leaderStep l true.
Proof.
  induction 1 as [| a l Ha Hl IH]; [reflexivity |].
  destruct l as [| b t]; [reflexivity |].
  change (map revenue (a :: b :: t)) with (revenue a :: revenue b :: map revenue t).
  change (map netProfit (a :: b :: t))
    with (netProfit a :: netProfit b :: map netProfit t).
  rewrite !growthRates_cons2, foldPairs_cons2. cbn [forallb].
  change (revenue b :: map revenue t) with (map revenue (b :: t)).
  change (netProfit b :: map netProfit t) with (map netProfit (b :: t)).
  destruct Ha as (ra & pa & Era & Epa & Hra & Hpa).
  inversion Hl as [| b' t' (rb & pb & Erb & Epb & Hrb & Hpb) _]; subst.
  rewrite Era, Epa, Erb, Epb.
  rewrite (growthRate_positive rb Hra), (growthRate_positive pb Hpa).
  assert (Estep : leaderStep b a true
                  = negb (num_le (Fin rb) (Fin ra))
                    && negb (num_le (Fin pb) (Fin pa))).
  { unfold leaderStep. rewrite Era, Epa, Erb, Epb.
    destruct (num_le (Fin rb) (Fin ra)), (num_le (Fin pb) (Fin pa));
      reflexivity. }
  rewrite Estep.
  destruct (num_le (Fin rb) (Fin ra)); cbn [negb andb orb].
  - rewrite foldPairs_leaderStep_false. reflexivity.
  - destruct (num_le (Fin pb) (Fin pa)); cbn [negb andb orb].
    + rewrite foldPairs_leaderStep_false. apply andb_false_r.
    + exact IH.
Qed.

(** X24.  [calculateGrowthMetrics] gives a company a [growth] entry exactly
    when it has at least 2 periods; its two trends are the n-1
    period-over-period growth rates (for revenue the same rates that the
    momentum score uses); and for a company with at least 3 periods whose
    revenue and profit are positive in every period its [consistentGrowth]
    flag agrees with the filter of [findGrowthLeaders]. *)
Theorem growth_metrics_agree_with_leaders (c : Company) :
  (DataLoader.growthOf c = None <-> (length (years c) < 2)%nat)
  /\ (forall g,
         DataLoader.growthOf c = Some g ->
         DataLoader.revenueGrowthTrend g = growthRates (map revenue (years c))
         /\ DataLoader.profitGrowthTrend g = growthRates (map netProfit (years c))
         /\ length (DataLoader.revenueGrowthTrend g) = (length (years c) - 1)%nat
         /\ length (DataLoader.profitGrowthTrend g) = (length (years c) - 1)%nat
         /\ ((3 <= length (years c))%nat -> positiveSeries c ->
             DataLoader.consistentGrowth g = growthLeaderFilter c)).
Proof.
  rewrite growthOf_trends.
  destruct (length (years c) <? 2)%nat eqn:E;
    [apply Nat.ltb_lt in E | apply Nat.ltb_ge in E].
  - split; [split; [intros _; exact E | reflexivity] | intros g H; discriminate H].
  - split; [split; [discriminate | lia] |].
    intros g H. injection H as <-.
    cbn [DataLoader.revenueGrowthTrend DataLoader.profitGrowthTrend
         DataLoader.consistentGrowth].
    rewrite !growthRates_length, !length_map.
    repeat split; try reflexivity.
    intros Hn Hpos. rewrite growthLeaderFilter_foldPairs.
    destruct (length (years c) <? 3)%nat eqn:E3; [apply Nat.ltb_lt in E3; lia |].
    apply consistentGrowth_is_leaderLoop. exact Hpos.
Qed.

Lemma growth_metrics_agree_with_leaders_witness :
  (3 <= length (years growing3))%nat
  /\ positiveSeries growing3
  /\ exists g,
      DataLoader.growthOf growing3 = Some g
      /\ DataLoader.consistentGrowth g = true
      /\ DataLoader.consistentGrowth g = growthLeaderFilter growing3.
Proof.
  assert (H1 : (3 <= length (years growing3))%nat) by (simpl; lia).
  assert (H2 : positiveSeries growing3).
  { repeat constructor; do 2 eexists;
      (split; [reflexivity |]); (split; [reflexivity |]); split; reflexivity. }
  split; [exact H1 |]. split; [exact H2 |].
  destruct (DataLoader.growthOf growing3) as [g |] eqn:E;
    [| vm_compute in E; discriminate E].
  exists g. split; [reflexivity |].
  pose proof (proj2 (growth_metrics_agree_with_leaders growing3) g E)
    as (_ & _ & _ & _ & Hagree).
  split; [| exact (Hagree H1 H2)].
  rewrite (Hagree H1 H2). reflexivity.
Defined.

(** Without positive values the two notions differ: a profit that grows from
    0 has growth rate 0 in [Utils.growthRate], so the loader does not flag
    the company although [findGrowthLeaders] keeps it. *)
Remark consistentGrowth_differs_from_zero_profit :
  growthLeaderFilter fromNothing = true
  /\ option_map DataLoader.consistentGrowth (DataLoader.growthOf fromNothing)
     = Some false.
Proof. split; vm_compute; reflexivity. Qed.
